(** * AI Study Assistant: classifier, persistence layer and export

    A shallow embedding of [subject_categorizer.py], [database.py] and
    [export_session_notes] of [app.py], with the properties the
    specification states about them.

    Conventions of the embedding.
    - A Python [str] is a [string]; its characters are taken in the ASCII
      range, where [str.lower] maps [A-Z] to [a-z] and the regular
      expression class [\w] is [[A-Za-z0-9_]].  Characters above 127 are
      left alone by [str_lower] and are not word characters.
    - A Python [dict] whose iteration order is observed is an association
      list in insertion order.
    - [None] is [None]; Python truthiness is written out where the code
      relies on it.
    - Columns: INTEGER holds 32-bit integers and VARCHAR(n) strings of at
      most n characters.  The storage refuses a rating and a subject
      category that do not fit; the width of a session name is not
      enforced by the embedding, and a theorem that depends on the name
      being stored says that it fits. *)

From Stdlib Require Import List String Ascii Bool Arith ZArith QArith Qround.
From Stdlib Require Import Lia Lqa.
From Stdlib Require Import Sorting.Sorted Sorting.Permutation.
From Stdlib Require Import DecimalString.
Import ListNotations.

Local Close Scope Q_scope.
Local Open Scope string_scope.
Local Open Scope list_scope.
Local Open Scope nat_scope.

(* ===================================================================== *)
(** * subject_categorizer.py *)
(* ===================================================================== *)

Module Categorizer.

(** ** Strings and the fragment of [re] the module uses *)

Definition chars (s : string) : list ascii := list_ascii_of_string s.

(** [c.lower()] on one ASCII character. *)
Definition lower_char (c : ascii) : ascii :=
  let n := nat_of_ascii c in
  if (65 <=? n) && (n <=? 90) then ascii_of_nat (n + 32) else c.

(** [s.lower()] *)
Fixpoint str_lower (s : string) : string :=
  match s with
  | EmptyString => EmptyString
  | String c s' => String (lower_char c) (str_lower s')
  end.

(** [\w] *)
Definition is_word (c : ascii) : bool :=
  let n := nat_of_ascii c in
  ((97 <=? n) && (n <=? 122)) || ((65 <=? n) && (n <=? 90))
  || ((48 <=? n) && (n <=? 57)) || (n =? 95).

(** Word-ness of the character on one side of a position; outside the
    string there is no character, which counts as a non-word one. *)
Definition side_word (c : option ascii) : bool :=
  match c with
  | Some a => is_word a
  | None => false
  end.

(** [\b] between the character [before] and the character [after]. *)
Definition boundary (before after : option ascii) : bool :=
  xorb (side_word before) (side_word after).

(** The literal [p] is read at the start of [s]; the remainder is what
    follows it. *)
Fixpoint strip_prefix (p s : list ascii) : option (list ascii) :=
  match p with
  | [] => Some s
  | a :: p' =>
      match s with
      | [] => None
      | b :: s' => if Ascii.eqb a b then strip_prefix p' s' else None
      end
  end.

Definition last_char (prev : option ascii) (kw : list ascii) : option ascii :=
  match rev kw with
  | [] => prev
  | a :: _ => Some a
  end.

(** The pattern [r'\b' + re.escape(kw) + r'\b'] matches at the start of the
    suffix [s], whose preceding character is [prev]. *)
Definition match_at (kw : list ascii) (prev : option ascii)
    (s : list ascii) : bool :=
  boundary prev (hd_error s)
  && match strip_prefix kw s with
     | Some rest => boundary (last_char prev kw) (hd_error rest)
     | None => false
     end.

(** [len(re.findall(pattern, s))] for a non-empty literal between two
    [\b]: the scan goes left to right and resumes after the end of each
    match.  [skip] is the number of characters of the last match that are
    still to be stepped over. *)
Fixpoint count_from (kw : list ascii) (prev : option ascii) (skip : nat)
    (s : list ascii) : nat :=
  match s with
  | [] => 0
  | c :: s' =>
      match skip with
      | S k => count_from kw (Some c) k s'
      | O =>
          if match_at kw prev s
          then S (count_from kw (Some c) (List.length kw - 1) s')
          else count_from kw (Some c) 0 s'
      end
  end.

Definition findall_count (keyword_lower question_lower : string) : nat :=
  count_from (chars keyword_lower) None 0 (chars question_lower).

(** [needle in haystack] *)
Fixpoint contains_chars (needle hay : list ascii) : bool :=
  match strip_prefix needle hay with
  | Some _ => true
  | None =>
      match hay with
      | [] => false
      | _ :: hay' => contains_chars needle hay'
      end
  end.

Definition str_in (needle hay : string) : bool :=
  contains_chars (chars needle) (chars hay).

(** ** The category table *)

Definition SUBJECT_CATEGORIES : list (string * list string) :=
  [ ("Mathematics",
      ["math"; "algebra"; "geometry"; "calculus"; "trigonometry";
       "arithmetic"; "equation"; "formula"; "theorem"; "proof";
       "derivative"; "integral"; "matrix"; "vector"; "probability";
       "statistics"; "graph"; "function"; "polynomial"; "logarithm";
       "sine"; "cosine"; "tangent"; "quadratic"; "linear"; "exponential"]);
    ("Science",
      ["physics"; "chemistry"; "biology"; "science"; "atom"; "molecule";
       "cell"; "organism"; "evolution"; "genetics"; "DNA"; "photosynthesis";
       "respiration"; "gravity"; "force"; "energy"; "momentum"; "wave";
       "light"; "electricity"; "magnetism"; "chemical"; "reaction";
       "element"; "compound"; "ecosystem"]);
    ("History",
      ["history"; "historical"; "ancient"; "medieval"; "revolution"; "war";
       "empire"; "civilization"; "culture"; "democracy"; "monarchy";
       "republic"; "treaty"; "constitution"; "independence"; "colonial";
       "renaissance"; "reformation"]);
    ("Geography",
      ["geography"; "continent"; "country"; "capital"; "mountain"; "river";
       "ocean"; "climate"; "weather"; "latitude"; "longitude"; "population";
       "map"; "atlas"; "desert"; "forest"; "plateau"; "valley"; "island";
       "peninsula"]);
    ("Literature",
      ["literature"; "poem"; "poetry"; "novel"; "story"; "author"; "writer";
       "book"; "character"; "plot"; "theme"; "metaphor"; "symbolism";
       "alliteration"; "shakespeare"; "prose"; "verse"; "narrative";
       "fiction"; "non-fiction"]);
    ("Computer Science",
      ["programming"; "computer"; "software"; "hardware"; "algorithm";
       "coding"; "code"; "python"; "javascript"; "java"; "data structure";
       "database"; "network"; "internet"; "website"; "app"; "application";
       "debugging"; "variable"; "function"; "loop"; "array"; "object";
       "class"]);
    ("Language Arts",
      ["grammar"; "vocabulary"; "spelling"; "writing"; "reading";
       "comprehension"; "sentence"; "paragraph"; "essay"; "verb"; "noun";
       "adjective"; "adverb"; "punctuation"; "comma"; "period";
       "question mark"; "exclamation"]);
    ("Social Studies",
      ["government"; "politics"; "economics"; "society"; "community";
       "citizenship"; "rights"; "law"; "justice"; "democracy"; "election";
       "vote"; "tax"; "economy"; "market"; "trade"; "currency";
       "inflation"]) ].

(** ** categorize_question *)

(** One turn of the inner loop over the keywords of a category. *)
Definition score_step (question_lower : string) (score : nat)
    (keyword : string) : nat :=
  let matches := findall_count (str_lower keyword) question_lower in
  let score := score + matches in
  if (6 <? String.length keyword) && (0 <? matches) then score + 1 else score.

Definition category_score (question_lower : string)
    (keywords : list string) : nat :=
  fold_left (score_step question_lower) keywords 0.

(** The outer loop: [category_scores] receives the categories of positive
    score, in the order of the table. *)
Definition scores_step (question_lower : string)
    (category_scores : list (string * nat))
    (entry : string * list string) : list (string * nat) :=
  let score := category_score question_lower (snd entry) in
  if 0 <? score then category_scores ++ [(fst entry, score)]
  else category_scores.

Definition category_scores (question_lower : string) : list (string * nat) :=
  fold_left (scores_step question_lower) SUBJECT_CATEGORIES [].

(** [max(d.keys(), key=lambda k: d[k])] on a non-empty dict: the first key
    of maximal value. *)
Fixpoint max_by_score (best : string * nat) (rest : list (string * nat))
    : string * nat :=
  match rest with
  | [] => best
  | kv :: rest' =>
      if snd best <? snd kv then max_by_score kv rest'
      else max_by_score best rest'
  end.

(** [SUBJECT_CATEGORIES[category]] *)
Fixpoint keywords_of (table : list (string * list string))
    (category : string) : list string :=
  match table with
  | [] => []
  | (c, kws) :: table' =>
      if String.eqb c category then kws else keywords_of table' category
  end.

(** The test of the final loop: a keyword of the best category longer than
    six characters whose lower-cased form is a substring of the question. *)
Definition strong_keyword (question_lower keyword : string) : bool :=
  (6 <? String.length keyword) && str_in (str_lower keyword) question_lower.

Definition categorize_question (question : string) : option string :=
  match question with
  | EmptyString => None
  | _ =>
      let question_lower := str_lower question in
      match category_scores question_lower with
      | [] => None
      | first :: others =>
          let (best_category, best_score) := max_by_score first others in
          if 2 <=? best_score then Some best_category
          else if best_score =? 1 then
            if existsb (strong_keyword question_lower)
                 (keywords_of SUBJECT_CATEGORIES best_category)
            then Some best_category
            else None
          else None
      end
  end.

(** ** Whole-word occurrences, as the specification words them *)

(** Number of positions of [s] at which [kw] occurs delimited by word
    boundaries; every position is looked at on its own. *)
Fixpoint occurrences (kw : list ascii) (prev : option ascii)
    (s : list ascii) : nat :=
  match s with
  | [] => 0
  | c :: s' =>
      (if match_at kw prev s then 1 else 0) + occurrences kw (Some c) s'
  end.

(** Case-insensitive whole-word occurrences of one keyword in a question. *)
Definition keyword_occurrences (keyword question : string) : nat :=
  occurrences (chars (str_lower keyword)) None (chars (str_lower question)).

(** Whole-word occurrences of the keywords of a category. *)
Definition category_occurrences (category question : string) : nat :=
  list_sum (map (fun kw => keyword_occurrences kw question)
                (keywords_of SUBJECT_CATEGORIES category)).

(** The keywords of a category that occur as whole words. *)
Definition matched_keywords (category question : string) : list string :=
  filter (fun kw => 0 <? keyword_occurrences kw question)
         (keywords_of SUBJECT_CATEGORIES category).

(** What one keyword adds to the score of its category. *)
Definition keyword_points (question_lower keyword : string) : nat :=
  score_step question_lower 0 keyword.

(** Occurrences that begin within the first [k] positions of [s]. *)
Fixpoint occurrences_within (kw : list ascii) (prev : option ascii) (k : nat)
    (s : list ascii) : nat :=
  match k, s with
  | S k', c :: s' =>
      (if match_at kw prev s then 1 else 0)
      + occurrences_within kw (Some c) k' s'
  | _, _ => 0
  end.

(** No position inside the keyword both follows a word boundary and
    carries the first character of the keyword: two whole-word occurrences
    of such a keyword cannot overlap. *)
Fixpoint no_restart (first prev : ascii) (rest : list ascii) : bool :=
  match rest with
  | [] => true
  | c :: rest' =>
      (negb (boundary (Some prev) (Some c)) || negb (Ascii.eqb first c))
      && no_restart first c rest'
  end.

Definition overlap_free (kw : list ascii) : bool :=
  match kw with
  | [] => true
  | first :: rest => no_restart first first rest
  end.

Definition keyword_overlap_free (keyword : string) : bool :=
  overlap_free (chars (str_lower keyword)).

Definition category_names : list string := map fst SUBJECT_CATEGORIES.

(** The questions the embedding speaks for: every character is in the
    ASCII range. *)
Definition ascii_only (question : string) : bool :=
  forallb (fun c => nat_of_ascii c <? 128) (chars question).

(** What one entry of the table adds to [category_scores]. *)
Definition scored_entry (question_lower : string)
    (entry : string * list string) : list (string * nat) :=
  scores_step question_lower [] entry.

(** ** get_subject_specific_prompt *)

Definition prompts : list (string * string) :=
  [ ("Mathematics",
     "Focus on step-by-step solutions, show your work clearly, and explain mathematical concepts with examples.");
    ("Science",
     "Provide scientific explanations with examples from real life, include relevant facts and encourage further exploration.");
    ("History",
     "Provide historical context, dates, and explain cause-and-effect relationships. Include relevant historical figures and events.");
    ("Geography",
     "Include specific locations, geographical features, and relate to maps and spatial understanding.");
    ("Literature",
     "Discuss literary techniques, themes, and provide examples from well-known works when relevant.");
    ("Computer Science",
     "Provide clear code examples when relevant, explain concepts step-by-step, and relate to practical applications.");
    ("Language Arts",
     "Focus on clear explanations of language rules, provide examples, and help with writing improvement.");
    ("Social Studies",
     "Explain social concepts, governmental processes, and relate to current events when appropriate.") ].

(** [d.get(key, default)] *)
Fixpoint dict_get (d : list (string * string)) (key default : string)
    : string :=
  match d with
  | [] => default
  | (k, v) :: d' => if String.eqb k key then v else dict_get d' key default
  end.

Definition get_subject_specific_prompt (category : string) : string :=
  dict_get prompts category "".

(** The score the loop of [categorize_question] gives a category. *)
Definition score_of (category question : string) : nat :=
  category_score (str_lower question)
    (keywords_of SUBJECT_CATEGORIES category).

(** Position of a category in the table. *)
Fixpoint rank_in (names : list string) (category : string) : nat :=
  match names with
  | [] => 0
  | c :: names' =>
      if String.eqb c category then 0 else S (rank_in names' category)
  end.

End Categorizer.

(* ===================================================================== *)
(** * database.py *)
(* ===================================================================== *)

Module Database.

(** ** Rows and tables *)

(** A [datetime], as a count of microseconds. *)
Definition datetime := Z.

(** Row of [study_sessions]. *)
Record StudySession := mkStudySession {
  ss_id : Z;
  ss_session_name : string;
  ss_created_at : datetime;
  ss_updated_at : datetime
}.

(** Row of [chat_exchanges]. *)
Record ChatExchange := mkChatExchange {
  ce_id : Z;
  ce_session_id : Z;
  ce_question : string;
  ce_answer : string;
  ce_subject_category : option string;
  ce_rating : option Z;
  ce_feedback : option string;
  ce_timestamp : datetime
}.

(** What the storage holds: the two tables, rows in insertion order, and
    the two primary-key sequences. *)
Record Store := mkStore {
  study_sessions : list StudySession;
  chat_exchanges : list ChatExchange;
  next_session_id : Z;
  next_exchange_id : Z
}.

Definition empty_store : Store := mkStore [] [] 1 1.

(** ** Units of work *)

(** The storage backend is outside the program; whether it answers is an
    input of every call.  [FailsAfter n]: the first [n] round trips of the
    unit of work are answered, the next one raises. *)
Inductive Backend :=
| Healthy
| FailsAfter (n : nat).

(** A [Session()]: the committed content, the content as seen inside the
    open transaction, whether the storage will take the rows added since
    the last commit when they are flushed (their foreign keys resolve), and
    the backend. *)
Record UnitOfWork := mkUnitOfWork {
  committed : Store;
  working : Store;
  pending_ok : bool;
  backend : Backend
}.

Inductive Outcome (A : Type) :=
| Returned (a : A)
| Raised.
Arguments Returned {A} a.
Arguments Raised {A}.

(** Code running against an open [Session()]. *)
Definition DB (A : Type) := UnitOfWork -> Outcome A * UnitOfWork.

Definition ret {A} (a : A) : DB A := fun u => (Returned a, u).

Definition bind {A B} (m : DB A) (k : A -> DB B) : DB B :=
  fun u =>
    match m u with
    | (Returned a, u') => k a u'
    | (Raised, u') => (Raised, u')
    end.

Declare Scope db_scope.
Delimit Scope db_scope with db.
Notation "x <- m ;; k" := (bind m (fun x => k))
  (at level 61, m at next level, right associativity) : db_scope.
Notation "m ;; k" := (bind m (fun _ => k))
  (at level 61, right associativity) : db_scope.
Local Open Scope db_scope.

(** [try: body  except Exception: handler] *)
Definition try_except {A} (body handler : DB A) : DB A :=
  fun u =>
    match body u with
    | (Returned a, u') => (Returned a, u')
    | (Raised, u') => handler u'
    end.

(** [try: body  finally: cleanup]; the outcome of [body] stands. *)
Definition try_finally {A} (body : DB A) (cleanup : UnitOfWork -> UnitOfWork)
    : DB A :=
  fun u => let (r, u') := body u in (r, cleanup u').

(** One round trip to the storage. *)
Definition round_trip : DB unit :=
  fun u =>
    match backend u with
    | Healthy => (Returned tt, u)
    | FailsAfter O => (Raised, u)
    | FailsAfter (S n) =>
        (Returned tt,
         mkUnitOfWork (committed u) (working u) (pending_ok u) (FailsAfter n))
    end.

Definition read_working : DB Store := fun u => (Returned (working u), u).

Definition write_working (s : Store) : DB unit :=
  fun u =>
    (Returned tt, mkUnitOfWork (committed u) s (pending_ok u) (backend u)).

Definition raise {A} : DB A := fun u => (Raised, u).

(** [get_db_session()] *)
Definition get_db_session (b : Backend) (s : Store) : UnitOfWork :=
  mkUnitOfWork s s true b.

(** [db.close()]: what was not committed is dropped. *)
Definition close (u : UnitOfWork) : UnitOfWork :=
  mkUnitOfWork (committed u) (committed u) true (backend u).

(** [db.rollback()] *)
Definition rollback : DB unit :=
  fun u =>
    (Returned tt, mkUnitOfWork (committed u) (committed u) true (backend u)).

(** The foreign key of [chat_exchanges.session_id]. *)
Definition session_exists (s : Store) (session_id : Z) : bool :=
  existsb (fun r => ss_id r =? session_id)%Z (study_sessions s).

(** Every exchange refers to a stored session. *)
Definition foreign_keys_ok (s : Store) : bool :=
  forallb (fun e => session_exists s (ce_session_id e)) (chat_exchanges s).

(** [db.commit()]: the pending rows are flushed and the transaction is
    committed; a row that breaks the foreign key is refused and the commit
    raises. *)
Definition commit : DB unit :=
  round_trip ;;
  fun u =>
    if pending_ok u
    then (Returned tt, mkUnitOfWork (working u) (working u) true (backend u))
    else (Raised, u).

(** A whole call: open, run, and what is persisted afterwards. *)
Definition call {A} (b : Backend) (body : DB A) (s : Store)
    : Outcome A * Store :=
  let (r, u) := body (get_db_session b s) in (r, committed u).

(** ** Statements *)

(** [db.add(StudySession(session_name=...))]; the key comes from the
    sequence, both timestamps from the [datetime.utcnow] default. *)
Definition add_session (now : datetime) (session_name : string) : DB Z :=
  w <- read_working ;;
  let new_id := next_session_id w in
  write_working
    (mkStore (study_sessions w ++ [mkStudySession new_id session_name now now])
             (chat_exchanges w) (new_id + 1)%Z (next_exchange_id w)) ;;
  ret new_id.

(** The storage will refuse a pending row whose session is missing. *)
Definition expect_session (session_id : Z) : DB unit :=
  fun u =>
    (Returned tt,
     mkUnitOfWork (committed u) (working u)
       (pending_ok u && session_exists (working u) session_id) (backend u)).

(** The values an INTEGER column takes. *)
Definition fits_integer (z : Z) : bool :=
  (-2147483648 <=? z)%Z && (z <=? 2147483647)%Z.

(** A rating fits [chat_exchanges.rating]; NULL always does. *)
Definition fits_rating (rating : option Z) : bool :=
  match rating with
  | Some r => fits_integer r
  | None => true
  end.

(** A string fits a VARCHAR(n) column; NULL always does. *)
Definition fits_varchar (n : nat) (s : option string) : bool :=
  match s with
  | Some text => (String.length text <=? n)%nat
  | None => true
  end.

(** The storage will refuse a pending statement that carries a value its
    column cannot take. *)
Definition expect_value (fits : bool) : DB unit :=
  fun u =>
    (Returned tt,
     mkUnitOfWork (committed u) (working u) (pending_ok u && fits)
       (backend u)).

(** [db.add(ChatExchange(...))]; rating and feedback start as NULL.  The
    subject category goes to a VARCHAR(100) column. *)
Definition add_exchange (now : datetime) (session_id : Z)
    (question answer : string) (subject_category : option string) : DB Z :=
  w <- read_working ;;
  let new_id := next_exchange_id w in
  expect_session session_id ;;
  expect_value (fits_varchar 100 subject_category) ;;
  write_working
    (mkStore (study_sessions w)
             (chat_exchanges w ++
                [mkChatExchange new_id session_id question answer
                   subject_category None None now])
             (next_session_id w) (new_id + 1)%Z) ;;
  ret new_id.

(** [db.refresh(session)] *)
Definition refresh : DB unit := round_trip.

(** Insertion into a list ordered by [le]; equal keys keep their order. *)
Fixpoint insert_by {A} (le : A -> A -> bool) (x : A) (l : list A) : list A :=
  match l with
  | [] => [x]
  | y :: l' => if le x y then x :: l else y :: insert_by le x l'
  end.

(** [ORDER BY]: rows of equal key stay in table order. *)
Fixpoint order_by {A} (le : A -> A -> bool) (l : list A) : list A :=
  match l with
  | [] => []
  | x :: l' => insert_by le x (order_by le l')
  end.

(** [db.query(StudySession).order_by(StudySession.updated_at.desc()).all()] *)
Definition query_sessions_by_updated_desc : DB (list StudySession) :=
  round_trip ;;
  w <- read_working ;;
  ret (order_by (fun a b => ss_updated_at b <=? ss_updated_at a)%Z
                (study_sessions w)).

(** [db.query(ChatExchange).filter(ChatExchange.session_id == session_id)
       .order_by(ChatExchange.timestamp.asc()).all()] *)
Definition query_exchanges_of (session_id : Z) : DB (list ChatExchange) :=
  round_trip ;;
  w <- read_working ;;
  ret (order_by (fun a b => ce_timestamp a <=? ce_timestamp b)%Z
         (filter (fun e => ce_session_id e =? session_id)%Z
                 (chat_exchanges w))).

(** [db.query(ChatExchange).filter(ChatExchange.id == exchange_id).first()] *)
Definition query_exchange_first (exchange_id : Z) : DB (option ChatExchange) :=
  round_trip ;;
  w <- read_working ;;
  ret (find (fun e => ce_id e =? exchange_id)%Z (chat_exchanges w)).

(** The attribute writes on the object [.first()] returned, as they reach
    its row. *)
Fixpoint set_first_with_id (exchange_id : Z)
    (f : ChatExchange -> ChatExchange) (rows : list ChatExchange)
    : list ChatExchange :=
  match rows with
  | [] => []
  | e :: rows' =>
      if (ce_id e =? exchange_id)%Z then f e :: rows'
      else e :: set_first_with_id exchange_id f rows'
  end.

Definition update_exchange (exchange_id : Z)
    (f : ChatExchange -> ChatExchange) : DB unit :=
  w <- read_working ;;
  write_working
    (mkStore (study_sessions w)
             (set_first_with_id exchange_id f (chat_exchanges w))
             (next_session_id w) (next_exchange_id w)).

(** [db.query(ChatExchange).filter(ChatExchange.session_id == session_id)
       .delete()] *)
Definition delete_exchanges_of (session_id : Z) : DB unit :=
  round_trip ;;
  w <- read_working ;;
  write_working
    (mkStore (study_sessions w)
             (filter (fun e => negb (ce_session_id e =? session_id)%Z)
                     (chat_exchanges w))
             (next_session_id w) (next_exchange_id w)).

(** [db.query(StudySession).filter(StudySession.id == session_id).delete()];
    the storage refuses to drop a session some exchange still refers to. *)
Definition delete_session_row (session_id : Z) : DB unit :=
  round_trip ;;
  w <- read_working ;;
  if existsb (fun e => ce_session_id e =? session_id)%Z (chat_exchanges w)
  then raise
  else
    write_working
      (mkStore (filter (fun r => negb (ss_id r =? session_id)%Z)
                       (study_sessions w))
               (chat_exchanges w)
               (next_session_id w) (next_exchange_id w)).

(** [db.query(StudySession).count()], [db.query(ChatExchange).count()] *)
Definition count_sessions : DB nat :=
  round_trip ;; w <- read_working ;; ret (List.length (study_sessions w)).

Definition count_exchanges : DB nat :=
  round_trip ;; w <- read_working ;; ret (List.length (chat_exchanges w)).

(** The non-NULL ratings, in table order. *)
Fixpoint non_null_ratings (rows : list ChatExchange) : list Z :=
  match rows with
  | [] => []
  | e :: rows' =>
      match ce_rating e with
      | Some r => r :: non_null_ratings rows'
      | None => non_null_ratings rows'
      end
  end.

Definition sum_Z (l : list Z) : Z := fold_right Z.add 0%Z l.

(** SQL [AVG]: NULL over no row, the exact mean otherwise. *)
Definition sql_avg (l : list Z) : option Q :=
  match l with
  | [] => None
  | _ => Some (Qmake (sum_Z l) (Pos.of_nat (List.length l)))
  end.

(** [db.query(sa.func.avg(ChatExchange.rating))
       .filter(ChatExchange.rating.isnot(None)).scalar()] *)
Definition query_avg_rating : DB (option Q) :=
  round_trip ;;
  w <- read_working ;;
  ret (sql_avg (non_null_ratings (chat_exchanges w))).

(** ** The functions of the module *)

(** The dicts [get_study_sessions] and [get_chat_history] build. *)
Record SessionInfo := mkSessionInfo {
  si_id : Z;
  si_name : string;
  si_created_at : datetime;
  si_updated_at : datetime
}.

Record ExchangeInfo := mkExchangeInfo {
  ei_id : Z;
  ei_question : string;
  ei_answer : string;
  ei_subject_category : option string;
  ei_rating : option Z;
  ei_feedback : option string;
  ei_timestamp : string
}.

Record Stats := mkStats {
  total_sessions : nat;
  total_exchanges : nat;
  average_rating : option Q
}.

(** Reading an attribute of a row object after [commit] reloads the row. *)
Definition load_attributes : DB unit := round_trip.

(** [now] is what [datetime.utcnow] answers when the row is built. *)
Definition create_study_session (b : Backend) (now : datetime)
    (session_name : string) : Store -> Outcome Z * Store :=
  call b
    (try_finally
       (session_id <- add_session now session_name ;;
        commit ;;
        load_attributes ;;
        refresh ;;
        ret session_id)
       close).

Definition save_chat_exchange (b : Backend) (now : datetime) (session_id : Z)
    (question answer : string) (subject_category : option string)
    : Store -> Outcome Z * Store :=
  call b
    (try_finally
       (exchange_id <-
          add_exchange now session_id question answer subject_category ;;
        commit ;;
        load_attributes ;;
        ret exchange_id)
       close).

Definition session_info (s : StudySession) : SessionInfo :=
  mkSessionInfo (ss_id s) (ss_session_name s) (ss_created_at s)
                (ss_updated_at s).

Definition get_study_sessions (b : Backend)
    : Store -> Outcome (list SessionInfo) * Store :=
  call b
    (try_finally
       (sessions <- query_sessions_by_updated_desc ;;
        ret (map session_info sessions))
       close).

Section History.

(** [datetime.strftime] with the format ["%Y-%m-%d %H:%M:%S"]. *)
Variable strftime : datetime -> string.

Definition exchange_info (e : ChatExchange) : ExchangeInfo :=
  mkExchangeInfo (ce_id e) (ce_question e) (ce_answer e)
    (ce_subject_category e) (ce_rating e) (ce_feedback e)
    (strftime (ce_timestamp e)).

Definition get_chat_history (b : Backend) (session_id : Z)
    : Store -> Outcome (list ExchangeInfo) * Store :=
  call b
    (try_finally
       (exchanges <- query_exchanges_of session_id ;;
        ret (map exchange_info exchanges))
       close).

End History.

(** Truthiness of an optional string: neither [None] nor empty. *)
Definition truthy_str (s : option string) : bool :=
  match s with
  | Some EmptyString => false
  | Some _ => true
  | None => false
  end.

(** [exchange.rating = rating], then [exchange.feedback = feedback] under
    [if feedback:]. *)
Definition rate (rating : option Z) (feedback : option string)
    (e : ChatExchange) : ChatExchange :=
  mkChatExchange (ce_id e) (ce_session_id e) (ce_question e) (ce_answer e)
    (ce_subject_category e) rating
    (if truthy_str feedback then feedback else ce_feedback e)
    (ce_timestamp e).

(** The UPDATE that [commit] flushes is refused when the rating does not
    fit the INTEGER column; the call then raises and nothing is stored. *)
Definition update_exchange_rating (b : Backend) (exchange_id : Z)
    (rating : option Z) (feedback : option string)
    : Store -> Outcome bool * Store :=
  call b
    (try_finally
       (exchange <- query_exchange_first exchange_id ;;
        match exchange with
        | Some _ =>
            update_exchange exchange_id (rate rating feedback) ;;
            expect_value (fits_rating rating) ;;
            commit ;;
            ret true
        | None => ret false
        end)
       close).

Definition delete_study_session (b : Backend) (session_id : Z)
    : Store -> Outcome bool * Store :=
  call b
    (try_finally
       (try_except
          (delete_exchanges_of session_id ;;
           delete_session_row session_id ;;
           commit ;;
           ret true)
          (rollback ;;
           ret false))
       close).

(** Rounding of a decimal to the nearest integer, ties to the even one. *)
Definition round_half_even (x : Q) : Z :=
  let f := Qfloor x in
  match Qcompare (x - inject_Z f) (1 # 2) with
  | Lt => f
  | Gt => (f + 1)%Z
  | Eq => if Z.even f then f else (f + 1)%Z
  end.

(** [round(x, 2)] *)
Definition round2 (x : Q) : Q := Qmake (round_half_even (x * 100)) 100.

(** Truthiness of the scalar [AVG] returns: neither [None] nor zero. *)
Definition truthy_avg (a : option Q) : bool :=
  match a with
  | Some q => negb (Qnum q =? 0)%Z
  | None => false
  end.

Definition get_session_stats (b : Backend) : Store -> Outcome Stats * Store :=
  call b
    (try_finally
       (n_sessions <- count_sessions ;;
        n_exchanges <- count_exchanges ;;
        avg_rating <- query_avg_rating ;;
        ret (mkStats n_sessions n_exchanges
               (if truthy_avg avg_rating
                then option_map round2 avg_rating
                else None)))
       close).

(** ** Recording a run of exchanges *)

(** One call of [save_chat_exchange] and the clock reading it gets. *)
Record Recording := mkRecording {
  rec_now : datetime;
  rec_session_id : Z;
  rec_question : string;
  rec_answer : string;
  rec_subject_category : option string
}.

Definition record (s : Store) (r : Recording) : Store :=
  snd (save_chat_exchange Healthy (rec_now r) (rec_session_id r)
         (rec_question r) (rec_answer r) (rec_subject_category r) s).

(** The calls of [rs], one after the other. *)
Definition record_all (rs : list Recording) (s : Store) : Store :=
  fold_left record rs s.

(** The row a recording leaves under the key [id]. *)
Definition recorded_row (id : Z) (r : Recording) : ChatExchange :=
  mkChatExchange id (rec_session_id r) (rec_question r) (rec_answer r)
    (rec_subject_category r) None None (rec_now r).

(** The rows of a run of recordings, keys drawn from [id] on. *)
Fixpoint recorded_rows (id : Z) (rs : list Recording) : list ChatExchange :=
  match rs with
  | [] => []
  | r :: rs' => recorded_row id r :: recorded_rows (id + 1)%Z rs'
  end.

Definition of_session (session_id : Z) (rows : list ChatExchange)
    : list ChatExchange :=
  filter (fun e => ce_session_id e =? session_id)%Z rows.

(** ** The scenario of the statistics example *)

(** Session S1 with two exchanges rated +1 and -1, then session S2 with
    none; the clock readings are 1 to 4. *)
Definition stats_scenario : Store :=
  let s := snd (create_study_session Healthy 1%Z "S1" empty_store) in
  let s := snd (save_chat_exchange Healthy 2%Z 1%Z "q1" "a1" None s) in
  let s := snd (save_chat_exchange Healthy 3%Z 1%Z "q2" "a2" None s) in
  let s := snd (update_exchange_rating Healthy 1%Z (Some 1%Z) None s) in
  let s := snd (update_exchange_rating Healthy 2%Z (Some (-1)%Z) None s) in
  snd (create_study_session Healthy 4%Z "S2" s).

(** ** The scenario of the ordering example *)

(** Two sessions, with keys 1 and 2, and no exchange yet. *)
Definition two_sessions : Store :=
  let s := snd (create_study_session Healthy 1%Z "S1" empty_store) in
  snd (create_study_session Healthy 2%Z "S2" s).

(** E1, E2 and E3 go to session 1; between them session 2 receives two
    exchanges, whose clock readings are out of step. *)
Definition interleaved : list Recording :=
  [ mkRecording 10%Z 1%Z "E1" "A1" None;
    mkRecording 99%Z 2%Z "X" "AX" None;
    mkRecording 11%Z 1%Z "E2" "A2" (Some "Science");
    mkRecording 5%Z 2%Z "Y" "AY" None;
    mkRecording 12%Z 1%Z "E3" "A3" None ].

(** Two exchanges of session 1, the second recorded while the clock had
    stepped back. *)
Definition clock_steps_back : list Recording :=
  [ mkRecording 20%Z 1%Z "E1" "A1" None;
    mkRecording 10%Z 1%Z "E2" "A2" None ].

(** A recording whose values fit their columns. *)
Definition fits_columns (r : Recording) : bool :=
  fits_varchar 100 (rec_subject_category r).

(** The rows a store holds; the key sequences are left aside. *)
Definition stored_rows (s : Store) : list StudySession * list ChatExchange :=
  (study_sessions s, chat_exchanges s).

(** ** Runs of calls *)

(** The calls that write, as the event handlers of the application issue
    them, each with the clock reading it gets where it reads the clock. *)
Inductive Request :=
| CreateSession (now : datetime) (session_name : string)
| SaveExchange (now : datetime) (session_id : Z) (question answer : string)
    (subject_category : option string)
| UpdateRating (exchange_id : Z) (rating : option Z)
    (feedback : option string)
| DeleteSession (session_id : Z).

(** What is stored after one call, on the backend it meets. *)
Definition serve (s : Store) (call : Backend * Request) : Store :=
  match call with
  | (b, CreateSession now session_name) =>
      snd (create_study_session b now session_name s)
  | (b, SaveExchange now session_id question answer subject_category) =>
      snd (save_chat_exchange b now session_id question answer
             subject_category s)
  | (b, UpdateRating exchange_id rating feedback) =>
      snd (update_exchange_rating b exchange_id rating feedback s)
  | (b, DeleteSession session_id) =>
      snd (delete_study_session b session_id s)
  end.

Definition serve_all (calls : list (Backend * Request)) (s : Store) : Store :=
  fold_left serve calls s.

(** The primary keys of each table increase in table order and stay below
    the sequence of the table. *)
Definition keys_ok (s : Store) : Prop :=
  StronglySorted Z.lt (map ss_id (study_sessions s) ++ [next_session_id s])
  /\ StronglySorted Z.lt
       (map ce_id (chat_exchanges s) ++ [next_exchange_id s]).


End Database.

(* ===================================================================== *)
(** * app.py: export_session_notes *)
(* ===================================================================== *)

Module App.

Import Database.
Local Open Scope string_scope.

Definition newline : string := String (ascii_of_nat 10) EmptyString.

(** The two rating glyphs, U+1F44D and U+1F44E, in UTF-8. *)
Definition thumbs_up : string :=
  String (ascii_of_nat 240) (String (ascii_of_nat 159)
    (String (ascii_of_nat 145) (String (ascii_of_nat 141) EmptyString))).

Definition thumbs_down : string :=
  String (ascii_of_nat 240) (String (ascii_of_nat 159)
    (String (ascii_of_nat 145) (String (ascii_of_nat 142) EmptyString))).

(** [s * n] *)
Fixpoint repeat_str (s : string) (n : nat) : string :=
  match n with
  | O => EmptyString
  | S n' => s ++ repeat_str s n'
  end.

(** [f"{i}"] for a non-negative integer. *)
Definition str_of_nat (i : nat) : string :=
  DecimalString.NilZero.string_of_uint (Nat.to_uint i).

Definition truthy_int (r : option Z) : bool :=
  match r with
  | Some z => negb (z =? 0)%Z
  | None => false
  end.

(** [session_data] *)
Record SessionData := mkSessionData {
  sd_name : string;
  sd_created_at : datetime;
  sd_history : list ExchangeInfo
}.

(** [io.StringIO]: the text written so far. *)
Definition StringIO := string.

Definition write (output : StringIO) (s : string) : StringIO := output ++ s.

Section ExportNotes.

(** [str] of a [datetime], as the f-string prints it. *)
Variable datetime_str : datetime -> string.

Definition write_header (output : StringIO) (session_data : SessionData)
    : StringIO :=
  let output :=
    write output ("Study Session: " ++ sd_name session_data ++ newline) in
  let output :=
    write output
      ("Created: " ++ datetime_str (sd_created_at session_data) ++ newline) in
  write output (repeat_str "=" 50 ++ newline ++ newline).

(** The body of the loop, for the exchange numbered [i]. *)
Definition write_exchange (output : StringIO) (i : nat)
    (exchange : ExchangeInfo) : StringIO :=
  let output :=
    write output
      ("Question " ++ str_of_nat i ++ ":" ++ newline
         ++ ei_question exchange ++ newline ++ newline) in
  let output :=
    write output
      ("Answer " ++ str_of_nat i ++ ":" ++ newline
         ++ ei_answer exchange ++ newline ++ newline) in
  let output :=
    if truthy_str (ei_subject_category exchange)
    then write output
           ("Subject: "
              ++ match ei_subject_category exchange with
                 | Some c => c
                 | None => EmptyString
                 end ++ newline)
    else output in
  let output :=
    if truthy_int (ei_rating exchange)
    then
      let rating_text :=
        match ei_rating exchange with
        | Some r => if (0 <? r)%Z then thumbs_up else thumbs_down
        | None => thumbs_down
        end in
      write output ("Rating: " ++ rating_text ++ newline)
    else output in
  let output :=
    if truthy_str (ei_feedback exchange)
    then write output
           ("Feedback: "
              ++ match ei_feedback exchange with
                 | Some f => f
                 | None => EmptyString
                 end ++ newline)
    else output in
  let output :=
    write output ("Time: " ++ ei_timestamp exchange ++ newline) in
  write output (repeat_str "-" 30 ++ newline ++ newline).

(** [for i, exchange in enumerate(session_data['history'], 1)], entered
    with the counter at [i]. *)
Fixpoint write_exchanges (output : StringIO) (i : nat)
    (history : list ExchangeInfo) : StringIO :=
  match history with
  | [] => output
  | exchange :: history' =>
      write_exchanges (write_exchange output i exchange) (S i) history'
  end.

Definition export_session_notes (session_data : SessionData) : string :=
  let output := write_header EmptyString session_data in
  write_exchanges output 1 (sd_history session_data).

(** The header and the block of one exchange, each written on an empty
    buffer. *)
Definition header (session_data : SessionData) : string :=
  write_header EmptyString session_data.

Definition exchange_block (i : nat) (exchange : ExchangeInfo) : string :=
  write_exchange EmptyString i exchange.

(** The blocks of a history numbered from [i] on. *)
Fixpoint exchange_blocks (i : nat) (history : list ExchangeInfo)
    : list string :=
  match history with
  | [] => []
  | exchange :: history' =>
      exchange_block i exchange :: exchange_blocks (S i) history'
  end.

End ExportNotes.

(** ** get_enhanced_ai_response *)

(** What [client.models.generate_content] does with a prompt: it returns a
    response whose [text] may be [None], or it raises; [message] is the
    [str] of the exception. *)
Inductive ApiResult :=
| Response (text : option string)
| ApiError (message : string).

(** The client, with the model and the generation settings fixed. *)
Definition Client := string -> ApiResult.

Definition system_prompt_base : string :=
  "You are a helpful AI study assistant. Your role is to:" ++ newline
  ++ "        - Provide clear, accurate, and educational responses" ++ newline
  ++ "        - Break down complex topics into understandable explanations"
  ++ newline
  ++ "        - Offer examples when helpful" ++ newline
  ++ "        - Encourage learning and critical thinking" ++ newline
  ++ "        - Be patient and supportive" ++ newline
  ++ "        " ++ newline
  ++ "        Please provide helpful and educational responses to "
  ++ "student questions.".

(** The system prompt after the guidance of the subject is added. *)
Definition system_prompt (subject_category : option string) : string :=
  match subject_category with
  | Some category =>
      if truthy_str subject_category
      then
        let subject_guidance :=
          Categorizer.get_subject_specific_prompt category in
        if truthy_str (Some subject_guidance)
        then system_prompt_base ++ newline ++ newline
               ++ "Subject-specific guidance for " ++ category ++ ": "
               ++ subject_guidance
        else system_prompt_base
      else system_prompt_base
  | None => system_prompt_base
  end.

(** One turn of the loop over the history. *)
Definition add_turn (conversation_context : string) (item : ExchangeInfo)
    : string :=
  conversation_context ++ "Student: " ++ ei_question item ++ newline
    ++ "Assistant: " ++ ei_answer item ++ newline ++ newline.

Definition conversation_context
    (conversation_history : option (list ExchangeInfo)) : string :=
  match conversation_history with
  | Some (item :: items) =>
      fold_left add_turn (item :: items)
        ("Previous conversation context:" ++ newline)
  | Some [] => EmptyString
  | None => EmptyString
  end.

Definition full_prompt (question : string)
    (conversation_history : option (list ExchangeInfo))
    (subject_category : option string) : string :=
  let full_prompt := system_prompt subject_category in
  let context := conversation_context conversation_history in
  let full_prompt :=
    if truthy_str (Some context)
    then full_prompt ++ newline ++ newline ++ context
    else full_prompt in
  full_prompt ++ newline ++ newline ++ "Student: " ++ question ++ newline
    ++ "Assistant:".

Definition get_enhanced_ai_response (client : Client) (question : string)
    (conversation_history : option (list ExchangeInfo))
    (subject_category : option string) : string :=
  match client (full_prompt question conversation_history subject_category)
  with
  | Response text =>
      if truthy_str text
      then match text with
           | Some t => t
           | None => EmptyString
           end
      else "I'm sorry, I couldn't generate a response. Please try again."
  | ApiError message => "Error getting response from AI: " ++ message
  end.

End App.

(* ===================================================================== *)
(** * Properties of the classifier *)
(* ===================================================================== *)

Module CategorizerFacts.

Import Categorizer.

(** ** Reading a literal *)

Lemma strip_prefix_app (p s rest : list ascii) :
  strip_prefix p s = Some rest -> s = p ++ rest.
Proof.
  revert s; induction p as [|a p IH]; intros s H; simpl in *.
  - now inversion H.
  - destruct s as [|b s]; [discriminate|].
    destruct (Ascii.eqb_spec a b) as [->|]; [|discriminate].
    now rewrite (IH _ H).
Qed.

Lemma match_at_head (kw : list ascii) (prev : option ascii) (c : ascii)
    (s : list ascii) (first : ascii) (rest : list ascii) :
  kw = first :: rest ->
  match_at kw prev (c :: s) = true ->
  boundary prev (Some c) = true /\ first = c /\ exists r, s = rest ++ r.
Proof.
  intros -> H. unfold match_at in H. simpl in H.
  apply andb_prop in H as [Hb H]. split; [exact Hb|].
  destruct (Ascii.eqb_spec first c) as [->|]; [|discriminate].
  split; [reflexivity|].
  destruct (strip_prefix rest s) as [r|] eqn:E; [|discriminate].
  exists r. now apply strip_prefix_app.
Qed.

(** ** The scan counts every whole-word occurrence *)

Lemma no_restart_within (first : ascii) (kt : list ascii) :
  forall (rest : list ascii) (p : ascii) (r : list ascii),
    no_restart first p rest = true ->
    occurrences_within (first :: kt) (Some p) (List.length rest) (rest ++ r)
    = 0.
Proof.
  induction rest as [|a rest IH]; intros p r H; simpl in *; [reflexivity|].
  apply andb_prop in H as [Ha Hrest].
  rewrite (IH _ _ Hrest), Nat.add_0_r.
  destruct (match_at (first :: kt) (Some p) (a :: rest ++ r)) eqn:E;
    [|reflexivity].
  destruct (match_at_head _ _ _ _ _ _ eq_refl E) as (Hb & Hf & _).
  subst a. rewrite Hb, Ascii.eqb_refl in Ha. discriminate.
Qed.

Lemma overlap_free_within (kw : list ascii) (prev : option ascii) (c : ascii)
    (s : list ascii) :
  overlap_free kw = true ->
  match_at kw prev (c :: s) = true ->
  occurrences_within kw (Some c) (List.length kw - 1) s = 0.
Proof.
  intros Hfree Hm. destruct kw as [|first kt]; [reflexivity|].
  destruct (match_at_head _ _ _ _ _ _ eq_refl Hm) as (_ & -> & r & ->).
  simpl. rewrite Nat.sub_0_r. now apply no_restart_within.
Qed.

Lemma count_from_occurrences (kw : list ascii) :
  overlap_free kw = true ->
  forall (s : list ascii) (prev : option ascii) (k : nat),
    occurrences_within kw prev k s = 0 ->
    count_from kw prev k s = occurrences kw prev s.
Proof.
  intros Hfree. induction s as [|c s IH]; intros prev k Hk; [reflexivity|].
  destruct k as [|k]; simpl in *.
  - destruct (match_at kw prev (c :: s)) eqn:E.
    + rewrite IH; [reflexivity|]. now apply (overlap_free_within kw prev).
    + rewrite IH; [reflexivity|]. now destruct s.
  - destruct (match_at kw prev (c :: s)); [discriminate|].
    simpl in *. now apply IH.
Qed.

Lemma table_overlap_free :
  forallb (fun entry => forallb keyword_overlap_free (snd entry))
          SUBJECT_CATEGORIES = true.
Proof. vm_compute. reflexivity. Qed.

Lemma findall_count_occurrences (keyword question : string) :
  keyword_overlap_free keyword = true ->
  findall_count (str_lower keyword) (str_lower question)
  = keyword_occurrences keyword question.
Proof.
  intros H. unfold findall_count, keyword_occurrences.
  apply count_from_occurrences; [exact H|].
  now destruct (chars (str_lower question)).
Qed.

(** ** Scores *)

Lemma score_step_points (question_lower : string) (score : nat)
    (keyword : string) :
  score_step question_lower score keyword
  = score + keyword_points question_lower keyword.
Proof.
  unfold keyword_points, score_step. simpl.
  destruct (_ && _); lia.
Qed.

Lemma category_score_sum (question_lower : string) (keywords : list string) :
  category_score question_lower keywords
  = list_sum (map (keyword_points question_lower) keywords).
Proof.
  unfold category_score.
  enough (H : forall acc,
             fold_left (score_step question_lower) keywords acc
             = acc + list_sum (map (keyword_points question_lower) keywords))
    by apply H.
  induction keywords as [|kw kws IH]; intros acc; simpl; [lia|].
  rewrite IH, score_step_points. lia.
Qed.

Lemma keyword_points_occurrences (keyword question : string) :
  keyword_overlap_free keyword = true ->
  keyword_points (str_lower question) keyword
  = keyword_occurrences keyword question
    + (if (6 <? String.length keyword)
          && (0 <? keyword_occurrences keyword question)
       then 1 else 0).
Proof.
  intros H. unfold keyword_points, score_step. simpl.
  rewrite (findall_count_occurrences _ _ H).
  destruct (_ && _); lia.
Qed.

Lemma category_score_ge (question : string) (keywords : list string) :
  forallb keyword_overlap_free keywords = true ->
  list_sum (map (fun kw => keyword_occurrences kw question) keywords)
  <= category_score (str_lower question) keywords.
Proof.
  rewrite category_score_sum.
  induction keywords as [|kw kws IH]; intros H; simpl in *; [lia|].
  apply andb_prop in H as [Hkw Hkws].
  rewrite (keyword_points_occurrences _ _ Hkw). specialize (IH Hkws). lia.
Qed.

Lemma category_score_zero (question : string) (keywords : list string) :
  forallb keyword_overlap_free keywords = true ->
  list_sum (map (fun kw => keyword_occurrences kw question) keywords) = 0 ->
  category_score (str_lower question) keywords = 0.
Proof.
  rewrite category_score_sum.
  induction keywords as [|kw kws IH]; intros H H0; simpl in *; [reflexivity|].
  apply andb_prop in H as [Hkw Hkws].
  rewrite (keyword_points_occurrences _ _ Hkw).
  assert (E : keyword_occurrences kw question = 0) by lia.
  rewrite E, IH by (assumption || lia).
  now rewrite andb_false_r.
Qed.

(** ** The table as a dict *)

Lemma keywords_of_entry (table : list (string * list string))
    (category : string) (keywords : list string) :
  NoDup (map fst table) ->
  In (category, keywords) table ->
  keywords_of table category = keywords.
Proof.
  induction table as [|[c kws] table IH]; intros Hnd Hin; [contradiction|].
  simpl in *. inversion Hnd as [|? ? Hc Hnd']; subst.
  destruct Hin as [E|Hin].
  - inversion E; subst. now rewrite String.eqb_refl.
  - destruct (String.eqb_spec c category) as [->|_]; [|now apply IH].
    exfalso. apply Hc. now apply (in_map fst _ (category, keywords)).
Qed.

Lemma flat_map_nil {A B} (g : A -> list B) (l : list A) :
  (forall x, In x l -> g x = []) -> flat_map g l = [].
Proof.
  induction l as [|x l IH]; intros H; simpl; [reflexivity|].
  rewrite (H x (or_introl eq_refl)), IH; [reflexivity|].
  intros y Hy. apply H. now right.
Qed.

Lemma flat_map_single {B} (g : string * list string -> list B)
    (table : list (string * list string)) (category : string) :
  NoDup (map fst table) ->
  In category (map fst table) ->
  (forall entry, In entry table -> fst entry <> category -> g entry = []) ->
  flat_map g table = g (category, keywords_of table category).
Proof.
  induction table as [|[c kws] table IH]; intros Hnd Hin Hg; [contradiction|].
  simpl in *. inversion Hnd as [|? ? Hc Hnd']; subst.
  destruct (String.eqb_spec c category) as [->|Hne].
  - rewrite flat_map_nil; [apply app_nil_r|].
    intros e He. apply Hg; [now right|].
    intros E. apply Hc. rewrite <- E. now apply in_map.
  - rewrite (Hg (c, kws)); [|now left|exact Hne]. simpl.
    apply IH; [exact Hnd'| |].
    + destruct Hin as [E|Hin]; [contradiction|exact Hin].
    + intros e He. apply Hg. now right.
Qed.

Lemma category_scores_flat_map (question_lower : string) :
  category_scores question_lower
  = flat_map (scored_entry question_lower) SUBJECT_CATEGORIES.
Proof.
  unfold category_scores.
  enough (H : forall table acc,
             fold_left (scores_step question_lower) table acc
             = acc ++ flat_map (scored_entry question_lower) table).
  { rewrite (H SUBJECT_CATEGORIES []). exact (app_nil_l _). }
  induction table as [|e table IH]; intros acc; simpl.
  - now rewrite app_nil_r.
  - rewrite IH. unfold scored_entry, scores_step.
    destruct (0 <? _); simpl; [now rewrite <- app_assoc|reflexivity].
Qed.

Lemma category_names_nodup : NoDup category_names.
Proof.
  unfold category_names. simpl.
  repeat (constructor; [simpl; intuition discriminate|]). constructor.
Qed.

Lemma table_keywords_overlap_free (entry : string * list string) :
  In entry SUBJECT_CATEGORIES ->
  forallb keyword_overlap_free (snd entry) = true.
Proof.
  intros H. pose proof table_overlap_free as T.
  rewrite forallb_forall in T. now apply T.
Qed.

Lemma empty_question_no_occurrence (category : string) :
  category_occurrences category "" = 0.
Proof.
  unfold category_occurrences.
  induction (keywords_of SUBJECT_CATEGORIES category); simpl; auto.
Qed.

Lemma points_le_score (question_lower keyword : string)
    (keywords : list string) :
  In keyword keywords ->
  keyword_points question_lower keyword
  <= category_score question_lower keywords.
Proof.
  rewrite category_score_sum.
  induction keywords as [|kw kws IH]; intros H; [contradiction|].
  simpl. destruct H as [->|H]; [lia|]. specialize (IH H). lia.
Qed.

(** A category of score 1 has no whole-word match of a keyword longer than
    six characters: such a match is worth two points. *)
Lemma score_one_short_matches (question keyword : string)
    (keywords : list string) :
  forallb keyword_overlap_free keywords = true ->
  category_score (str_lower question) keywords = 1 ->
  In keyword keywords ->
  0 < keyword_occurrences keyword question ->
  String.length keyword <= 6.
Proof.
  intros Hfree Hscore Hin Hocc.
  pose proof (points_le_score (str_lower question) _ _ Hin) as Hle.
  rewrite forallb_forall in Hfree.
  rewrite (keyword_points_occurrences _ _ (Hfree _ Hin)), Hscore in Hle.
  destruct (6 <? String.length keyword) eqn:E.
  - apply Nat.ltb_lt in Hocc. rewrite Hocc in Hle. simpl in Hle.
    apply Nat.ltb_lt in Hocc. lia.
  - apply Nat.ltb_ge in E. exact E.
Qed.

(** ** The claims on the classifier *)

(** C9: the four sample questions of the specification: the quadratic
    formula is Mathematics, photosynthesis is Science, the capital of
    France is Geography, and a greeting gets no label. *)
Theorem C9_sample_questions :
  categorize_question "What is the quadratic formula?" = Some "Mathematics"
  /\ categorize_question "Explain photosynthesis" = Some "Science"
  /\ categorize_question "What is the capital of France?" = Some "Geography"
  /\ categorize_question "Hello there" = None.
Proof. repeat split; vm_compute; reflexivity. Qed.

(** C1: on the question "algebraic graph" the top category, Mathematics,
    has score 1 and its only keyword that matches as a whole word is
    "graph", of five characters, which by the confidence gate of the
    specification gives no label; [categorize_question] answers
    Mathematics, because its final loop finds "algebra", which does not
    match as a word, as a substring of the question. *)
Theorem C1_gate_takes_partial_match :
  category_scores (str_lower "algebraic graph") = [("Mathematics", 1)]
  /\ matched_keywords "Mathematics" "algebraic graph" = ["graph"]
  /\ String.length "graph" <= 6
  /\ keyword_occurrences "algebra" "algebraic graph" = 0
  /\ strong_keyword (str_lower "algebraic graph") "algebra" = true
  /\ categorize_question "algebraic graph" = Some "Mathematics".
Proof. repeat split; vm_compute; try reflexivity. lia. Qed.

(** C3: a question of ASCII characters with at least two whole-word,
    case-insensitive occurrences of keywords of one category, and none of
    the keywords of any other category, is given that category. *)
Theorem C3_two_occurrences_one_category (question category : string) :
  ascii_only question = true ->
  In category category_names ->
  2 <= category_occurrences category question ->
  (forall other, In other category_names -> other <> category ->
     category_occurrences other question = 0) ->
  categorize_question question = Some category.
Proof.
  intros _ Hin Htwo Hother.
  set (kws := keywords_of SUBJECT_CATEGORIES category).
  set (score := category_score (str_lower question) kws).
  assert (Hentry : In (category, kws) SUBJECT_CATEGORIES).
  { unfold category_names in Hin. apply in_map_iff in Hin as ([c k] & E & Hc).
    simpl in E. subst c. unfold kws.
    now rewrite (keywords_of_entry _ _ _ category_names_nodup Hc). }
  assert (Hscore : 2 <= score).
  { unfold score. etransitivity; [exact Htwo|].
    apply category_score_ge.
    exact (table_keywords_overlap_free _ Hentry). }
  assert (Hscores :
    category_scores (str_lower question) = [(category, score)]).
  { rewrite category_scores_flat_map.
    rewrite (flat_map_single _ _ category category_names_nodup Hin).
    - unfold scored_entry, scores_step. cbn [fst snd]. fold kws. fold score.
      destruct (Nat.ltb_spec 0 score); [reflexivity|lia].
    - intros [c k] Hc Hne. cbn [fst] in Hne.
      unfold scored_entry, scores_step. cbn [fst snd].
      rewrite category_score_zero; [reflexivity| |].
      + exact (table_keywords_overlap_free _ Hc).
      + rewrite <- (keywords_of_entry _ _ _ category_names_nodup Hc).
        apply Hother; [|exact Hne].
        unfold category_names. now apply (in_map fst _ (c, k)). }
  destruct question as [|a question].
  - rewrite empty_question_no_occurrence in Htwo. lia.
  - unfold categorize_question. cbv beta iota zeta. rewrite Hscores.
    cbn [max_by_score].
    destruct (Nat.leb_spec 2 score); [reflexivity|lia].
Qed.

Lemma C3_witness :
  categorize_question "Is the proof by math?" = Some "Mathematics".
Proof.
  apply C3_two_occurrences_one_category.
  - vm_compute. reflexivity.
  - vm_compute. tauto.
  - vm_compute. lia.
  - intros other Hin Hne. vm_compute in Hin.
    repeat (destruct Hin as [<-|Hin];
            [first [vm_compute; reflexivity | exfalso; now apply Hne]|]).
    contradiction.
Defined.

End CategorizerFacts.

(* ===================================================================== *)
(** * Properties of the persistence layer *)
(* ===================================================================== *)

Module DatabaseFacts.

Import Database.
Local Open Scope Z_scope.

(** Runs the plumbing of a call: the monad, the handlers and the unit of
    work. *)
Ltac run_db :=
  unfold call, try_finally, try_except, commit, load_attributes, refresh,
    query_exchange_first, query_exchanges_of, query_sessions_by_updated_desc,
    update_exchange, delete_exchanges_of, delete_session_row,
    count_sessions, count_exchanges, query_avg_rating,
    add_exchange, add_session, expect_session, expect_value,
    bind, ret, raise, rollback, round_trip, read_working, write_working,
    close, get_db_session;
  cbn [fst snd committed working pending_ok backend andb
       study_sessions chat_exchanges next_session_id next_exchange_id].

(** ** ORDER BY *)

Lemma insert_by_in {A} (le : A -> A -> bool) (x y : A) (l : list A) :
  In y (insert_by le x l) <-> y = x \/ In y l.
Proof.
  induction l as [|z l IH]; simpl.
  - intuition.
  - destruct (le x z); simpl; [intuition|]. rewrite IH. intuition.
Qed.

Lemma order_by_in {A} (le : A -> A -> bool) (y : A) (l : list A) :
  In y (order_by le l) <-> In y l.
Proof.
  induction l as [|x l IH]; simpl; [reflexivity|].
  rewrite insert_by_in, IH. intuition.
Qed.

Lemma insert_by_perm {A} (le : A -> A -> bool) (x : A) (l : list A) :
  Permutation (insert_by le x l) (x :: l).
Proof.
  induction l as [|y l IH]; simpl; [reflexivity|].
  destruct (le x y); [reflexivity|].
  rewrite IH. apply perm_swap.
Qed.

Lemma order_by_perm {A} (le : A -> A -> bool) (l : list A) :
  Permutation (order_by le l) l.
Proof.
  induction l as [|x l IH]; simpl; [reflexivity|].
  rewrite insert_by_perm. now constructor.
Qed.

Lemma insert_by_ascending (x : ChatExchange) (l : list ChatExchange) :
  Sorted (fun a b => ce_timestamp a <= ce_timestamp b) l ->
  Sorted (fun a b => ce_timestamp a <= ce_timestamp b)
    (insert_by (fun a b => ce_timestamp a <=? ce_timestamp b) x l).
Proof.
  induction 1 as [|y l Hs IH Hy]; simpl.
  - repeat constructor.
  - destruct (Z.leb_spec (ce_timestamp x) (ce_timestamp y)).
    + repeat constructor; assumption.
    + constructor; [exact IH|].
      destruct l as [|z l]; simpl.
      * constructor. lia.
      * destruct (Z.leb_spec (ce_timestamp x) (ce_timestamp z));
          constructor; [lia|]. now inversion Hy.
Qed.

Lemma order_by_ascending (l : list ChatExchange) :
  Sorted (fun a b => ce_timestamp a <= ce_timestamp b)
    (order_by (fun a b => ce_timestamp a <=? ce_timestamp b) l).
Proof.
  induction l as [|x l IH]; simpl; [constructor|].
  now apply insert_by_ascending.
Qed.

(** Rows already in order are left as they are. *)
Lemma order_by_sorted {A} (le : A -> A -> bool) (R : A -> A -> Prop)
    (l : list A) :
  (forall a b, R a b -> le a b = true) ->
  StronglySorted R l ->
  order_by le l = l.
Proof.
  intros HR. induction 1 as [|x l Hs IH Hx]; simpl; [reflexivity|].
  rewrite IH. destruct l as [|y l]; [reflexivity|]. simpl.
  inversion Hx as [|? ? Hxy _]; subst. now rewrite (HR _ _ Hxy).
Qed.

Lemma StronglySorted_map_inv {A B} (f : A -> B) (R : B -> B -> Prop)
    (l : list A) :
  StronglySorted R (map f l) ->
  StronglySorted (fun a b => R (f a) (f b)) l.
Proof.
  induction l as [|x l IH]; simpl; intros H; [constructor|].
  inversion H as [|? ? Hs Hx]; subst. constructor; [now apply IH|].
  rewrite Forall_forall in *. intros y Hy. apply Hx. now apply in_map.
Qed.

(** ** Filters on the exchange table *)

Lemma no_exchange_left (session_id : Z) (rows : list ChatExchange) :
  existsb (fun e => ce_session_id e =? session_id)
    (filter (fun e => negb (ce_session_id e =? session_id)) rows) = false.
Proof.
  induction rows as [|e rows IH]; simpl; [reflexivity|].
  destruct (ce_session_id e =? session_id) eqn:E; simpl; [exact IH|].
  now rewrite E.
Qed.

Lemma of_session_after_delete (session_id : Z) (rows : list ChatExchange) :
  of_session session_id
    (filter (fun e => negb (ce_session_id e =? session_id)) rows) = [].
Proof.
  unfold of_session.
  induction rows as [|e rows IH]; simpl; [reflexivity|].
  destruct (ce_session_id e =? session_id) eqn:E; simpl; [exact IH|].
  now rewrite E.
Qed.

Lemma filter_all {A} (p : A -> bool) (l : list A) :
  forallb p l = true -> filter p l = l.
Proof.
  induction l as [|x l IH]; simpl; [reflexivity|].
  intros H. apply andb_prop in H as [Hx Hl]. now rewrite Hx, IH.
Qed.

(** Under the foreign key, a session that is not stored owns no exchange. *)
Lemma unknown_session_owns_nothing (s : Store) (session_id : Z) :
  foreign_keys_ok s = true ->
  session_exists s session_id = false ->
  forallb (fun e => negb (ce_session_id e =? session_id)) (chat_exchanges s)
  = true.
Proof.
  unfold foreign_keys_ok. intros Hfk Hno.
  rewrite forallb_forall in *. intros e He. specialize (Hfk e He).
  destruct (Z.eqb_spec (ce_session_id e) session_id) as [E|]; [|reflexivity].
  rewrite E in Hfk. congruence.
Qed.

Lemma unknown_session_no_row (s : Store) (session_id : Z) :
  session_exists s session_id = false ->
  forallb (fun r => negb (ss_id r =? session_id)) (study_sessions s) = true.
Proof.
  unfold session_exists.
  induction (study_sessions s) as [|r l IH]; simpl; [reflexivity|].
  destruct (ss_id r =? session_id); simpl; [discriminate|exact IH].
Qed.

(** ** delete_study_session *)

Lemma delete_healthy (session_id : Z) (s : Store) :
  delete_study_session Healthy session_id s
  = (Returned true,
     mkStore
       (filter (fun r => negb (ss_id r =? session_id)) (study_sessions s))
       (filter (fun e => negb (ce_session_id e =? session_id))
               (chat_exchanges s))
       (next_session_id s) (next_exchange_id s)).
Proof.
  unfold delete_study_session. run_db.
  rewrite no_exchange_left. reflexivity.
Qed.

Lemma delete_answered (n : nat) (session_id : Z) (s : Store) :
  delete_study_session (FailsAfter (S (S (S n)))) session_id s
  = delete_study_session Healthy session_id s.
Proof.
  rewrite delete_healthy.
  unfold delete_study_session. run_db.
  rewrite no_exchange_left. reflexivity.
Qed.

Lemma delete_unanswered (n : nat) (session_id : Z) (s : Store) :
  (n < 3)%nat ->
  delete_study_session (FailsAfter n) session_id s = (Returned false, s).
Proof.
  intros Hn. unfold delete_study_session.
  destruct n as [|[|[|n]]]; [| | |lia]; run_db;
    rewrite ?no_exchange_left; reflexivity.
Qed.


Lemma history_healthy (strftime : datetime -> string) (session_id : Z)
    (s : Store) :
  get_chat_history strftime Healthy session_id s
  = (Returned
       (map (exchange_info strftime)
          (order_by (fun a b => ce_timestamp a <=? ce_timestamp b)
             (of_session session_id (chat_exchanges s)))),
     s).
Proof. reflexivity. Qed.

Lemma sessions_healthy (s : Store) :
  get_study_sessions Healthy s
  = (Returned
       (map session_info
          (order_by (fun a b => ss_updated_at b <=? ss_updated_at a)
             (study_sessions s))),
     s).
Proof. reflexivity. Qed.

(** C4: [delete_study_session] answers with a boolean, which is False
    exactly when one of the three round trips of the call (the two DELETE
    and the COMMIT) raised, and so True on a healthy backend.  When it
    answers True the session row and every exchange of the session are
    gone, the other rows are kept, the history of the session is empty and
    the session is no longer listed; when it answers False what is stored
    is what was stored before the call. *)
Theorem C4_delete_all_or_nothing (strftime : datetime -> string)
    (b : Backend) (session_id : Z) (s : Store) :
  exists (ok : bool) (s' : Store),
    delete_study_session b session_id s = (Returned ok, s')
    /\ (ok = false <-> exists n, b = FailsAfter n /\ (n < 3)%nat)
    /\ if ok then
         study_sessions s'
         = filter (fun r => negb (ss_id r =? session_id)) (study_sessions s)
         /\ chat_exchanges s'
            = filter (fun e => negb (ce_session_id e =? session_id))
                     (chat_exchanges s)
         /\ Forall (fun e => ce_session_id e <> session_id) (chat_exchanges s')
         /\ get_chat_history strftime Healthy session_id s' = (Returned [], s')
         /\ exists listed,
              get_study_sessions Healthy s' = (Returned listed, s')
              /\ ~ In session_id (map si_id listed)
       else s' = s.
Proof.
  assert (Hok : forall s',
    s' = snd (delete_study_session Healthy session_id s) ->
    study_sessions s'
    = filter (fun r => negb (ss_id r =? session_id)) (study_sessions s)
    /\ chat_exchanges s'
       = filter (fun e => negb (ce_session_id e =? session_id))
                (chat_exchanges s)
    /\ Forall (fun e => ce_session_id e <> session_id) (chat_exchanges s')
    /\ get_chat_history strftime Healthy session_id s' = (Returned [], s')
    /\ exists listed,
         get_study_sessions Healthy s' = (Returned listed, s')
         /\ ~ In session_id (map si_id listed)).
  { intros s' ->. rewrite delete_healthy.
    cbn [snd study_sessions chat_exchanges].
    split; [reflexivity|]. split; [reflexivity|]. split; [|split].
    - apply Forall_forall. intros e He. apply filter_In in He as [_ He].
      intros E. rewrite E, Z.eqb_refl in He. discriminate.
    - rewrite history_healthy. cbn [chat_exchanges].
      now rewrite of_session_after_delete.
    - eexists. split; [apply sessions_healthy|]. cbn [study_sessions].
      rewrite map_map. intros Hin. apply in_map_iff in Hin as (r & E & Hr).
      apply order_by_in, filter_In in Hr as [_ Hr].
      cbn [session_info si_id] in E. rewrite E, Z.eqb_refl in Hr.
      discriminate. }
  assert (Hfails : forall n, (n < 3)%nat ->
            false = false <-> exists m, FailsAfter n = FailsAfter m
                                        /\ (m < 3)%nat).
  { intros n Hn. split; [|reflexivity]. intros _. now exists n. }
  destruct b as [|[|[|[|n]]]].
  - exists true, (snd (delete_study_session Healthy session_id s)).
    split; [now rewrite delete_healthy|]. split; [|now apply Hok].
    split; [discriminate|]. intros (n & E & _). discriminate.
  - exists false, s. split; [apply delete_unanswered; lia|].
    split; [apply Hfails; lia|reflexivity].
  - exists false, s. split; [apply delete_unanswered; lia|].
    split; [apply Hfails; lia|reflexivity].
  - exists false, s. split; [apply delete_unanswered; lia|].
    split; [apply Hfails; lia|reflexivity].
  - exists true, (snd (delete_study_session Healthy session_id s)).
    split; [now rewrite delete_answered, delete_healthy|].
    split; [|now apply Hok].
    split; [discriminate|]. intros (m & E & Hm). inversion E. lia.
Qed.

Lemma C4_witness :
  exists s',
    delete_study_session Healthy 1 stats_scenario = (Returned true, s')
    /\ chat_exchanges s' = []
    /\ map ss_id (study_sessions s') = [2].
Proof.
  destruct (C4_delete_all_or_nothing (fun _ => EmptyString) Healthy 1
              stats_scenario) as (ok & s' & Heq & Hok & Hrest).
  destruct ok.
  - destruct Hrest as (Hs & He & _). exists s'. split; [exact Heq|].
    rewrite He, Hs. split; reflexivity.
  - exfalso. destruct (proj1 Hok eq_refl) as (n & E & _). discriminate.
Defined.

(** C10: deleting a session id that is not stored answers True on a
    healthy backend and leaves sessions and exchanges as they were; on any
    backend the store is unchanged, and the answer is False exactly when one
    of the three round trips of the call raised. *)
Theorem C10_delete_unknown_session (session_id : Z) (s : Store) :
  foreign_keys_ok s = true ->
  session_exists s session_id = false ->
  delete_study_session Healthy session_id s = (Returned true, s)
  /\ forall b, exists ok,
       delete_study_session b session_id s = (Returned ok, s)
       /\ (ok = false <-> exists n, b = FailsAfter n /\ (n < 3)%nat).
Proof.
  intros Hfk Hno.
  assert (Hh : delete_study_session Healthy session_id s = (Returned true, s)).
  { rewrite delete_healthy.
    rewrite (filter_all _ _ (unknown_session_owns_nothing _ _ Hfk Hno)).
    rewrite (filter_all _ _ (unknown_session_no_row _ _ Hno)).
    now destruct s. }
  split; [exact Hh|].
  intros [|n].
  - exists true. split; [exact Hh|]. split; [discriminate|].
    intros (n & E & _). discriminate.
  - destruct (Nat.ltb_spec n 3) as [Hn|Hn].
    + exists false. split; [now apply delete_unanswered|].
      split; [|reflexivity]. intros _. now exists n.
    + destruct n as [|[|[|n]]]; try lia.
      exists true. split; [now rewrite delete_answered, Hh|].
      split; [discriminate|]. intros (m & E & Hm). inversion E. lia.
Qed.

Lemma C10_witness :
  foreign_keys_ok stats_scenario = true
  /\ session_exists stats_scenario 7 = false
  /\ delete_study_session Healthy 7 stats_scenario
     = (Returned true, stats_scenario).
Proof.
  split; [reflexivity|]. split; [reflexivity|].
  apply (C10_delete_unknown_session 7 stats_scenario); reflexivity.
Defined.

(** ** update_exchange_rating *)

Lemma update_healthy (exchange_id : Z) (rating : option Z)
    (feedback : option string) (s : Store) :
  update_exchange_rating Healthy exchange_id rating feedback s
  = match find (fun e => ce_id e =? exchange_id) (chat_exchanges s) with
    | Some _ =>
        if fits_rating rating
        then (Returned true,
              mkStore (study_sessions s)
                (set_first_with_id exchange_id (rate rating feedback)
                   (chat_exchanges s))
                (next_session_id s) (next_exchange_id s))
        else (Raised, s)
    | None => (Returned false, s)
    end.
Proof.
  unfold update_exchange_rating. run_db.
  destruct (find _ _); [|reflexivity].
  now destruct (fits_rating rating).
Qed.

(** Whatever the backend does, the call persists either nothing or what a
    healthy call persists. *)
Lemma update_persists (b : Backend) (exchange_id : Z) (rating : option Z)
    (feedback : option string) (s : Store) :
  snd (update_exchange_rating b exchange_id rating feedback s) = s
  \/ snd (update_exchange_rating b exchange_id rating feedback s)
     = snd (update_exchange_rating Healthy exchange_id rating feedback s).
Proof.
  destruct b as [|[|[|n]]]; [now right| | |];
    unfold update_exchange_rating; run_db;
    destruct (find _ _); cbn [snd]; auto;
    destruct (fits_rating rating); cbn [snd]; auto.
Qed.

Lemma set_first_split (exchange_id : Z) (f : ChatExchange -> ChatExchange)
    (rows : list ChatExchange) (e : ChatExchange) :
  find (fun e => ce_id e =? exchange_id) rows = Some e ->
  exists before after,
    rows = before ++ e :: after
    /\ set_first_with_id exchange_id f rows = before ++ f e :: after
    /\ Forall (fun x => ce_id x <> exchange_id) before.
Proof.
  induction rows as [|x rows IH]; simpl; [discriminate|].
  destruct (Z.eqb_spec (ce_id x) exchange_id) as [E|E]; intros H.
  - inversion H; subst x. now exists [], rows.
  - destruct (IH H) as (before & after & -> & -> & Hb).
    exists (x :: before), after. repeat split. now constructor.
Qed.

Lemma find_set_first (exchange_id : Z) (f : ChatExchange -> ChatExchange)
    (rows : list ChatExchange) :
  (forall e, ce_id (f e) = ce_id e) ->
  find (fun e => ce_id e =? exchange_id)
       (set_first_with_id exchange_id f rows)
  = option_map f (find (fun e => ce_id e =? exchange_id) rows).
Proof.
  intros Hid. induction rows as [|x rows IH]; simpl; [reflexivity|].
  destruct (ce_id x =? exchange_id) eqn:E; simpl.
  - now rewrite Hid, E.
  - now rewrite E.
Qed.

Lemma set_first_twice (exchange_id : Z) (f : ChatExchange -> ChatExchange)
    (rows : list ChatExchange) :
  (forall e, ce_id (f e) = ce_id e) ->
  (forall e, f (f e) = f e) ->
  set_first_with_id exchange_id f (set_first_with_id exchange_id f rows)
  = set_first_with_id exchange_id f rows.
Proof.
  intros Hid Hff. induction rows as [|x rows IH]; simpl; [reflexivity|].
  destruct (ce_id x =? exchange_id) eqn:E; simpl.
  - now rewrite Hid, E, Hff.
  - now rewrite E, IH.
Qed.

Lemma rate_twice (rating : option Z) (feedback : option string)
    (e : ChatExchange) :
  rate rating feedback (rate rating feedback e) = rate rating feedback e.
Proof. unfold rate. simpl. now destruct (truthy_str feedback). Qed.

(** C5: without an exchange of that id [update_exchange_rating] answers
    False and stores nothing; with one, and a rating that is None or fits
    the INTEGER column, it answers True, the rating of that row becomes the
    given value, its feedback becomes the given value when that is a
    non-empty string and stays what it was otherwise, and nothing else
    changes. *)
Theorem C5_update_exchange_rating (exchange_id : Z) (rating : option Z)
    (feedback : option string) (s : Store) :
  match find (fun e => ce_id e =? exchange_id) (chat_exchanges s) with
  | None =>
      update_exchange_rating Healthy exchange_id rating feedback s
      = (Returned false, s)
  | Some e =>
      fits_rating rating = true ->
      exists s' before after,
        update_exchange_rating Healthy exchange_id rating feedback s
        = (Returned true, s')
        /\ chat_exchanges s = before ++ e :: after
        /\ Forall (fun x => ce_id x <> exchange_id) before
        /\ chat_exchanges s'
           = before
             ++ mkChatExchange (ce_id e) (ce_session_id e) (ce_question e)
                  (ce_answer e) (ce_subject_category e) rating
                  match feedback with
                  | Some EmptyString => ce_feedback e
                  | Some text => Some text
                  | None => ce_feedback e
                  end
                  (ce_timestamp e)
             :: after
        /\ study_sessions s' = study_sessions s
        /\ next_session_id s' = next_session_id s
        /\ next_exchange_id s' = next_exchange_id s
  end.
Proof.
  rewrite update_healthy.
  destruct (find _ _) as [e|] eqn:E; [|reflexivity].
  intros Hfits. rewrite Hfits.
  destruct (set_first_split _ (rate rating feedback) _ _ E)
    as (before & after & Hrows & Hset & Hbefore).
  eexists _, before, after. split; [reflexivity|].
  cbn [chat_exchanges study_sessions next_session_id next_exchange_id].
  repeat split; try assumption.
  rewrite Hset. unfold rate. now destruct feedback as [[|c t]|].
Qed.

Lemma C5_witness :
  fits_rating (Some 1) = true
  /\ exists s',
       update_exchange_rating Healthy 2 (Some 1) (Some "clear")
         stats_scenario = (Returned true, s')
       /\ map ce_rating (chat_exchanges s') = [Some 1; Some 1]
       /\ map ce_feedback (chat_exchanges s') = [None; Some "clear"]
       /\ study_sessions s' = study_sessions stats_scenario.
Proof.
  split; [reflexivity|].
  pose proof (C5_update_exchange_rating 2 (Some 1) (Some "clear")
                stats_scenario) as H.
  change (find (fun e => ce_id e =? 2) (chat_exchanges stats_scenario))
    with (Some (mkChatExchange 2 1 "q2" "a2" None (Some (-1)) None 3)) in H.
  destruct (H eq_refl)
    as (s' & before & after & Heq & Hrows & Hbefore & Hnew & Hs & _).
  exists s'. split; [exact Heq|].
  destruct before as [|x before].
  { inversion Hrows. }
  destruct before as [|y before].
  - inversion Hrows; subst. rewrite Hnew. repeat split. exact Hs.
  - inversion Hrows as [[Hx Hy]]. subst. inversion Hbefore as [|? ? _ Hb].
    inversion Hb as [|? ? Hid _]. now contradiction Hid.
Defined.

(** C6: a second [update_exchange_rating] with the same three arguments
    persists nothing new, on a healthy backend and on a failing one. *)
Theorem C6_update_rating_idempotent (b : Backend) (exchange_id : Z)
    (rating : option Z) (feedback : option string) (s : Store) :
  snd (update_exchange_rating b exchange_id rating feedback
         (snd (update_exchange_rating Healthy exchange_id rating feedback s)))
  = snd (update_exchange_rating Healthy exchange_id rating feedback s).
Proof.
  set (s1 :=
         snd (update_exchange_rating Healthy exchange_id rating feedback s)).
  destruct (update_persists b exchange_id rating feedback s1) as [H|H];
    [exact H|].
  rewrite H. unfold s1. rewrite !update_healthy.
  destruct (find _ (chat_exchanges s)) as [e|] eqn:E; cbn [snd].
  - destruct (fits_rating rating); cbn [snd]; [|now rewrite E].
    cbn [chat_exchanges].
    rewrite find_set_first, E by reflexivity. cbn [option_map snd].
    cbn [study_sessions chat_exchanges next_session_id next_exchange_id].
    rewrite set_first_twice; auto using rate_twice.
  - now rewrite E.
Qed.

(** ** save_chat_exchange and get_chat_history *)

Lemma record_existing (s : Store) (r : Recording) :
  session_exists s (rec_session_id r) = true ->
  fits_columns r = true ->
  record s r
  = mkStore (study_sessions s)
      (chat_exchanges s ++ [recorded_row (next_exchange_id s) r])
      (next_session_id s) (next_exchange_id s + 1).
Proof.
  unfold fits_columns. intros H Hfits.
  unfold record, save_chat_exchange. run_db.
  now rewrite H, Hfits.
Qed.

Lemma record_all_existing (rs : list Recording) :
  forall s : Store,
    (forall r, In r rs ->
       session_exists s (rec_session_id r) = true
       /\ fits_columns r = true) ->
    study_sessions (record_all rs s) = study_sessions s
    /\ chat_exchanges (record_all rs s)
       = chat_exchanges s ++ recorded_rows (next_exchange_id s) rs.
Proof.
  induction rs as [|r rs IH]; intros s H; simpl.
  - now rewrite app_nil_r.
  - rewrite (record_existing s r) by (apply H; now left).
    destruct (IH (mkStore (study_sessions s)
                    (chat_exchanges s ++ [recorded_row (next_exchange_id s) r])
                    (next_session_id s) (next_exchange_id s + 1)))
      as [Hs He].
    + intros r' Hr'. unfold session_exists. cbn [study_sessions].
      apply H. now right.
    + rewrite Hs, He. cbn [study_sessions chat_exchanges next_exchange_id].
      now rewrite <- app_assoc.
Qed.

Lemma recorded_rows_timestamps (session_id : Z) (rs : list Recording) :
  forall id,
    map ce_timestamp (of_session session_id (recorded_rows id rs))
    = map rec_now (filter (fun r => rec_session_id r =? session_id) rs).
Proof.
  unfold of_session.
  induction rs as [|r rs IH]; intros id; simpl; [reflexivity|].
  destruct (rec_session_id r =? session_id); simpl; now rewrite IH.
Qed.

(** C7, as the code has it: [get_chat_history] returns the exchanges of
    the session, each once, in ascending order of creation timestamp; the
    timestamps are the clock readings at recording, which the code does
    not make increase.  When those of the session do strictly increase in
    the order of recording, the exchanges come back in that order,
    whatever was recorded for other sessions in between: first the
    exchanges the session already had, then the new ones. *)
Theorem C7_history_in_timestamp_order (strftime : datetime -> string)
    (session_id : Z) (rs : list Recording) (s : Store) :
  (exists rows,
     get_chat_history strftime Healthy session_id (record_all rs s)
     = (Returned (map (exchange_info strftime) rows), record_all rs s)
     /\ Permutation rows
          (of_session session_id (chat_exchanges (record_all rs s)))
     /\ Sorted (fun a b => ce_timestamp a <= ce_timestamp b) rows)
  /\ ((forall r, In r rs ->
         session_exists s (rec_session_id r) = true
         /\ fits_columns r = true) ->
      StronglySorted Z.lt
        (map ce_timestamp (of_session session_id (chat_exchanges s))
         ++ map rec_now
              (filter (fun r => rec_session_id r =? session_id) rs)) ->
      get_chat_history strftime Healthy session_id (record_all rs s)
      = (Returned
           (map (exchange_info strftime)
              (of_session session_id (chat_exchanges s)
               ++ of_session session_id
                    (recorded_rows (next_exchange_id s) rs))),
         record_all rs s)).
Proof.
  split.
  { eexists. split; [apply history_healthy|].
    split; [apply order_by_perm|apply order_by_ascending]. }
  intros Hexists Hclock.
  rewrite history_healthy.
  destruct (record_all_existing rs s Hexists) as [_ ->].
  assert (Happ : forall l1 l2,
            of_session session_id (l1 ++ l2)
            = of_session session_id l1 ++ of_session session_id l2)
    by (intros; apply filter_app).
  rewrite Happ.
  rewrite (order_by_sorted _
             (fun a b => ce_timestamp a < ce_timestamp b)); [reflexivity| |].
  - intros a b Hab. apply Z.leb_le. lia.
  - apply StronglySorted_map_inv.
    now rewrite map_app, recorded_rows_timestamps.
Qed.

Lemma C7_witness :
  get_chat_history (fun _ => EmptyString) Healthy 1
    (record_all interleaved two_sessions)
  = (Returned
       [ mkExchangeInfo 1 "E1" "A1" None None None EmptyString;
         mkExchangeInfo 3 "E2" "A2" (Some "Science") None None EmptyString;
         mkExchangeInfo 5 "E3" "A3" None None None EmptyString ],
     record_all interleaved two_sessions).
Proof.
  apply (proj2 (C7_history_in_timestamp_order (fun _ => EmptyString) 1
                  interleaved two_sessions)).
  - intros r Hr. simpl in Hr.
    repeat (destruct Hr as [<-|Hr]; [split; reflexivity|]). contradiction.
  - simpl. repeat (constructor; [|repeat constructor; lia]). constructor.
Defined.

(** C7, as the specification words it, fails when the clock steps back:
    E1 is recorded at reading 20 and E2 after it at reading 10, both for
    session 1, and the history lists E2 before E1. *)
Lemma C7_counterexample :
  fst (get_chat_history (fun _ => EmptyString) Healthy 1
         (record_all clock_steps_back two_sessions))
  = Returned
      [ mkExchangeInfo 2 "E2" "A2" None None None EmptyString;
        mkExchangeInfo 1 "E1" "A1" None None None EmptyString ]
  /\ fst (get_chat_history (fun _ => EmptyString) Healthy 1
            (record_all clock_steps_back two_sessions))
     <> Returned
          (map (exchange_info (fun _ => EmptyString))
             (of_session 1
                (recorded_rows (next_exchange_id two_sessions)
                   clock_steps_back))).
Proof. split; [reflexivity|]. vm_compute. discriminate. Qed.

(** When the clock steps back between two recordings of a session, the
    history follows the timestamps, not the order of recording. *)
Example history_follows_the_clock :
  map ei_question
    match fst (get_chat_history (fun _ => EmptyString) Healthy 1
                 (record_all [ mkRecording 20 1 "first" "A1" None;
                               mkRecording 10 1 "second" "A2" None ]
                    two_sessions)) with
    | Returned history => history
    | Raised => []
    end
  = ["second"; "first"].
Proof. reflexivity. Qed.

(** ** get_session_stats *)

Lemma stats_healthy (s : Store) :
  get_session_stats Healthy s
  = (Returned
       (mkStats (List.length (study_sessions s))
          (List.length (chat_exchanges s))
          (let avg := sql_avg (non_null_ratings (chat_exchanges s)) in
           if truthy_avg avg then option_map round2 avg else None)),
     s).
Proof. reflexivity. Qed.

(** C2: in the scenario of the specification (S1 with two exchanges rated
    +1 and -1, S2 with none) the non-null ratings are +1 and -1, their mean
    exists and is 0, and [get_session_stats] reports 2 sessions, 2
    exchanges and no average rating, where the specification reports
    0.0. *)
Theorem C2_zero_mean_reported_absent :
  non_null_ratings (chat_exchanges stats_scenario) = [1; -1]
  /\ sql_avg (non_null_ratings (chat_exchanges stats_scenario))
     = Some (0 # 2)%Q
  /\ get_session_stats Healthy stats_scenario
     = (Returned (mkStats 2 2 None), stats_scenario).
Proof. repeat split. Qed.

(** ** The foreign key is an invariant of the module *)

Lemma session_exists_rows (s s' : Store) (session_id : Z) :
  study_sessions s' = study_sessions s ->
  session_exists s' session_id = session_exists s session_id.
Proof. unfold session_exists. now intros ->. Qed.

Lemma foreign_keys_empty : foreign_keys_ok empty_store = true.
Proof. reflexivity. Qed.

Lemma save_persists (b : Backend) (now : datetime) (session_id : Z)
    (question answer : string) (subject_category : option string)
    (s : Store) :
  snd (save_chat_exchange b now session_id question answer subject_category s)
  = s
  \/ session_exists s session_id = true
     /\ fits_varchar 100 subject_category = true
     /\ snd (save_chat_exchange b now session_id question answer
               subject_category s)
        = record s (mkRecording now session_id question answer
                      subject_category).
Proof.
  destruct (session_exists s session_id) eqn:E;
    destruct (fits_varchar 100 subject_category) eqn:F.
  - destruct b as [|[|[|n]]]; [right|left|right|right];
      try (split; [reflexivity|split; [reflexivity|]]);
      unfold record, save_chat_exchange; run_db;
      cbn [rec_now rec_session_id rec_question rec_answer
           rec_subject_category];
      rewrite ?E, ?F; reflexivity.
  - left. destruct b as [|[|n]];
      unfold save_chat_exchange; run_db; rewrite ?E, ?F; reflexivity.
  - left. destruct b as [|[|n]];
      unfold save_chat_exchange; run_db; rewrite ?E, ?F; reflexivity.
  - left. destruct b as [|[|n]];
      unfold save_chat_exchange; run_db; rewrite ?E, ?F; reflexivity.
Qed.

Lemma save_keeps_foreign_keys (b : Backend) (now : datetime) (session_id : Z)
    (question answer : string) (subject_category : option string)
    (s : Store) :
  foreign_keys_ok s = true ->
  foreign_keys_ok
    (snd (save_chat_exchange b now session_id question answer
            subject_category s)) = true.
Proof.
  intros Hfk.
  destruct (save_persists b now session_id question answer subject_category s)
    as [E|(Hex & Hfits & E)]; rewrite E; [exact Hfk|].
  rewrite record_existing by assumption.
  unfold foreign_keys_ok in *. cbn [chat_exchanges].
  rewrite forallb_app. apply andb_true_intro. split.
  - rewrite forallb_forall in *. intros e He.
    rewrite <- (Hfk e He). now apply session_exists_rows.
  - simpl. rewrite andb_true_r. rewrite <- Hex. now apply session_exists_rows.
Qed.

Lemma create_keeps_foreign_keys (b : Backend) (now : datetime)
    (session_name : string) (s : Store) :
  foreign_keys_ok s = true ->
  foreign_keys_ok (snd (create_study_session b now session_name s)) = true.
Proof.
  intros Hfk.
  assert (Hgrow : forall row,
    foreign_keys_ok
      (mkStore (study_sessions s ++ [row]) (chat_exchanges s)
         (next_session_id s + 1) (next_exchange_id s)) = true).
  { intros row. unfold foreign_keys_ok, session_exists in *.
    cbn [chat_exchanges study_sessions].
    rewrite forallb_forall in *. intros e He. specialize (Hfk e He).
    rewrite existsb_app, Hfk. reflexivity. }
  destruct b as [|[|[|[|n]]]];
    unfold create_study_session; run_db; auto.
Qed.

Lemma update_keeps_foreign_keys (b : Backend) (exchange_id : Z)
    (rating : option Z) (feedback : option string) (s : Store) :
  foreign_keys_ok s = true ->
  foreign_keys_ok
    (snd (update_exchange_rating b exchange_id rating feedback s)) = true.
Proof.
  intros Hfk.
  destruct (update_persists b exchange_id rating feedback s) as [-> | ->];
    [exact Hfk|].
  rewrite update_healthy.
  destruct (find _ _); [|exact Hfk].
  destruct (fits_rating rating); [|exact Hfk]. cbn [snd].
  unfold foreign_keys_ok, session_exists in *.
  cbn [chat_exchanges study_sessions].
  induction (chat_exchanges s) as [|e rows IH]; simpl in *; [reflexivity|].
  apply andb_prop in Hfk as [He Hrows].
  destruct (ce_id e =? exchange_id); simpl.
  - now rewrite He, Hrows.
  - now rewrite He, IH.
Qed.

Lemma delete_keeps_foreign_keys (b : Backend) (session_id : Z) (s : Store) :
  foreign_keys_ok s = true ->
  foreign_keys_ok (snd (delete_study_session b session_id s)) = true.
Proof.
  intros Hfk.
  assert (Hh : foreign_keys_ok
                 (snd (delete_study_session Healthy session_id s)) = true).
  { rewrite delete_healthy. cbn [snd].
    unfold foreign_keys_ok, session_exists in *.
    cbn [chat_exchanges study_sessions].
    rewrite forallb_forall in *. intros e He.
    apply filter_In in He as [He Hne]. specialize (Hfk e He).
    apply existsb_exists in Hfk as (r & Hr & Hid).
    apply existsb_exists. exists r. split; [|exact Hid].
    apply filter_In. split; [exact Hr|].
    apply Z.eqb_eq in Hid. now rewrite Hid. }
  destruct b as [|[|[|[|n]]]]; try exact Hh.
  - now rewrite delete_unanswered by lia.
  - now rewrite delete_unanswered by lia.
  - now rewrite delete_unanswered by lia.
  - now rewrite delete_answered.
Qed.

End DatabaseFacts.

(* ===================================================================== *)
(** * Properties of the export *)
(* ===================================================================== *)

Module AppFacts.

Import Database App.
Local Open Scope string_scope.

(** ** Strings *)

Lemma string_app_assoc (a b c : string) : (a ++ b) ++ c = a ++ (b ++ c).
Proof. induction a as [|x a IH]; simpl; [reflexivity|now rewrite IH]. Qed.

Lemma string_app_nil_r (a : string) : a ++ "" = a.
Proof. induction a as [|x a IH]; simpl; [reflexivity|now rewrite IH]. Qed.

Section ExportFacts.

Variable datetime_str : datetime -> string.

(** ** The buffer only grows *)

Lemma write_exchange_block (output : StringIO) (i : nat)
    (exchange : ExchangeInfo) :
  write_exchange output i exchange = output ++ exchange_block i exchange.
Proof.
  unfold exchange_block, write_exchange, write.
  destruct (truthy_str (ei_subject_category exchange));
    destruct (truthy_int (ei_rating exchange));
    destruct (truthy_str (ei_feedback exchange));
    change (EmptyString ++ ?x) with x;
    now rewrite !string_app_assoc.
Qed.

Lemma write_exchanges_blocks (history : list ExchangeInfo) :
  forall (output : StringIO) (i : nat),
    write_exchanges output i history
    = output ++ String.concat "" (exchange_blocks i history).
Proof.
  induction history as [|e history IH]; intros output i; simpl.
  - now rewrite string_app_nil_r.
  - rewrite IH, write_exchange_block, string_app_assoc. f_equal.
    destruct (exchange_blocks (S i) history) eqn:E.
    + destruct history; [now rewrite string_app_nil_r|discriminate].
    + reflexivity.
Qed.

Lemma exchange_blocks_numbered (history : list ExchangeInfo) :
  forall i,
    Forall2
      (fun (numbered : nat * ExchangeInfo) (block : string) =>
         exists rest,
           block
           = "Question " ++ str_of_nat (fst numbered) ++ ":" ++ newline
             ++ ei_question (snd numbered) ++ newline ++ newline
             ++ "Answer " ++ str_of_nat (fst numbered) ++ ":" ++ newline
             ++ ei_answer (snd numbered) ++ newline ++ newline
             ++ rest)
      (combine (seq i (List.length history)) history)
      (exchange_blocks i history).
Proof.
  induction history as [|e history IH]; intros i; simpl; constructor;
    [|apply IH].
  cbn [fst snd]. unfold exchange_block, write_exchange, write.
  change (EmptyString ++ ?x) with x.
  destruct (truthy_str (ei_subject_category e));
    destruct (truthy_int (ei_rating e));
    destruct (truthy_str (ei_feedback e));
    eexists; rewrite !string_app_assoc; reflexivity.
Qed.

(** C8: the export is the header (session name, creation time, separator
    line) followed by one block per exchange and nothing else; there are as
    many blocks as exchanges, the block of the exchange of rank [i], counted
    from 1, opens with the line "Question i:"; with no exchange the export
    is the header alone. *)
Theorem C8_export_blocks (name : string) (created_at : datetime)
    (history : list ExchangeInfo) :
  let session_data := mkSessionData name created_at history in
  let blocks := exchange_blocks 1 history in
  export_session_notes datetime_str session_data
  = header datetime_str session_data ++ String.concat "" blocks
  /\ header datetime_str session_data
     = "Study Session: " ++ name ++ newline
       ++ "Created: " ++ datetime_str created_at ++ newline
       ++ repeat_str "=" 50 ++ newline ++ newline
  /\ List.length blocks = List.length history
  /\ Forall2
       (fun (numbered : nat * ExchangeInfo) (block : string) =>
          exists rest,
            block
            = "Question " ++ str_of_nat (fst numbered) ++ ":" ++ newline
              ++ ei_question (snd numbered) ++ newline ++ newline
              ++ "Answer " ++ str_of_nat (fst numbered) ++ ":" ++ newline
              ++ ei_answer (snd numbered) ++ newline ++ newline
              ++ rest)
       (combine (seq 1 (List.length history)) history)
       blocks
  /\ export_session_notes datetime_str (mkSessionData name created_at [])
     = header datetime_str (mkSessionData name created_at []).
Proof.
  intros session_data blocks. repeat split.
  - unfold export_session_notes, header. cbn [sd_history session_data].
    apply write_exchanges_blocks.
  - unfold header, write_header, write.
    cbn [sd_name sd_created_at session_data].
    change (EmptyString ++ ?x) with x.
    now rewrite !string_app_assoc.
  - unfold blocks. generalize 1%nat.
    induction history as [|e h IH]; intros i; simpl; [reflexivity|].
    now rewrite IH.
  - apply exchange_blocks_numbered.
Qed.

End ExportFacts.

End AppFacts.

(* ===================================================================== *)
(** * More on the classifier *)
(* ===================================================================== *)

Module CategorizerMore.

Import Categorizer CategorizerFacts.

(** ** What [category_scores] holds *)

Lemma scored_entry_in (question : string) (entry : string * list string)
    (x : string * nat) :
  In x (scored_entry (str_lower question) entry) ->
  In entry SUBJECT_CATEGORIES ->
  x = (fst entry, score_of (fst entry) question) /\ 0 < snd x.
Proof.
  unfold scored_entry, scores_step. intros Hx Hentry.
  destruct entry as [c kws]. cbn [fst snd] in *.
  unfold score_of.
  rewrite (keywords_of_entry _ _ _ category_names_nodup Hentry).
  destruct (Nat.ltb_spec 0 (category_score (str_lower question) kws));
    simpl in Hx; [|contradiction].
  destruct Hx as [<-|[]]. now split.
Qed.

Lemma category_scores_in (question : string) (x : string * nat) :
  In x (category_scores (str_lower question)) ->
  In (fst x) category_names
  /\ snd x = score_of (fst x) question /\ 0 < snd x.
Proof.
  rewrite category_scores_flat_map. intros H.
  apply in_flat_map in H as (entry & Hentry & Hx).
  destruct (scored_entry_in _ _ _ Hx Hentry) as [-> Hpos].
  cbn [fst snd] in *. repeat split; [|exact Hpos].
  unfold category_names. now apply in_map.
Qed.

Lemma category_scores_has (question category : string) :
  In category category_names ->
  0 < score_of category question ->
  In (category, score_of category question)
     (category_scores (str_lower question)).
Proof.
  intros Hin Hpos. rewrite category_scores_flat_map.
  unfold category_names in Hin. apply in_map_iff in Hin as ([c kws] & E & Hc).
  cbn [fst] in E. subst c.
  apply in_flat_map. exists (category, kws). split; [exact Hc|].
  unfold scored_entry, scores_step. cbn [fst snd].
  unfold score_of in *.
  rewrite (keywords_of_entry _ _ _ category_names_nodup Hc) in *.
  apply Nat.ltb_lt in Hpos. rewrite Hpos. now left.
Qed.

(** ** The first maximum *)

Lemma max_by_score_first (rest : list (string * nat)) :
  forall best : string * nat,
    exists before after,
      best :: rest = before ++ max_by_score best rest :: after
      /\ Forall (fun x => snd x < snd (max_by_score best rest)) before
      /\ Forall (fun x => snd x <= snd (max_by_score best rest)) after.
Proof.
  induction rest as [|kv rest IH]; intros best; simpl.
  - exists [], []. repeat split; constructor.
  - destruct (Nat.ltb_spec (snd best) (snd kv)) as [Hlt|Hge].
    + destruct (IH kv) as (before & after & E & Hb & Ha).
      exists (best :: before), after. rewrite E. repeat split; [|exact Ha].
      constructor; [|exact Hb].
      assert (Hkv : snd kv <= snd (max_by_score kv rest)).
      { assert (Hin : In kv (before ++ max_by_score kv rest :: after))
          by (rewrite <- E; now left).
        rewrite Forall_forall in Hb, Ha.
        apply in_app_or in Hin as [Hin|[Heq|Hin]];
          [specialize (Hb _ Hin); lia|rewrite Heq; lia|exact (Ha _ Hin)]. }
      lia.
    + destruct (IH best) as (before & after & E & Hb & Ha).
      destruct before as [|b0 before]; simpl in E.
      * injection E as Hbest Hrest.
        exists [], (kv :: rest). rewrite <- Hbest in *. subst after.
        repeat split; [constructor|]. constructor; assumption.
      * injection E as Hbest Hrest. subst b0.
        exists (best :: kv :: before), after.
        inversion Hb as [|? ? Hb0 Hb']; subst.
        split; [simpl; do 2 f_equal; exact Hrest|]. split; [|exact Ha].
        repeat constructor; [exact Hb0|lia|exact Hb'].
Qed.

Lemma max_by_score_max (best : string * nat) (rest : list (string * nat))
    (x : string * nat) :
  In x (best :: rest) -> snd x <= snd (max_by_score best rest).
Proof.
  destruct (max_by_score_first rest best) as (before & after & E & Hb & Ha).
  rewrite E. rewrite Forall_forall in Hb, Ha. intros Hin.
  apply in_app_or in Hin as [Hin|[<-|Hin]];
    [specialize (Hb _ Hin); lia|lia|exact (Ha _ Hin)].
Qed.

Lemma max_by_score_in (best : string * nat) (rest : list (string * nat)) :
  In (max_by_score best rest) (best :: rest).
Proof.
  destruct (max_by_score_first rest best) as (before & after & E & _).
  rewrite E. apply in_or_app. right. now left.
Qed.

(** ** The gate, case by case *)

Lemma categorize_question_cases (question : string) :
  match category_scores (str_lower question) with
  | [] => categorize_question question = None
  | first :: others =>
      categorize_question question
      = if 2 <=? snd (max_by_score first others)
        then Some (fst (max_by_score first others))
        else if (snd (max_by_score first others) =? 1)
                && existsb (strong_keyword (str_lower question))
                     (keywords_of SUBJECT_CATEGORIES
                        (fst (max_by_score first others)))
        then Some (fst (max_by_score first others))
        else None
  end.
Proof.
  destruct question as [|a question].
  - vm_compute. reflexivity.
  - unfold categorize_question. cbv beta iota zeta.
    destruct (category_scores (str_lower (String a question)))
      as [|first others]; [reflexivity|].
    destruct (max_by_score first others) as [c sc]. cbn [fst snd].
    destruct (2 <=? sc); [reflexivity|].
    destruct (sc =? 1); [|reflexivity].
    now destruct (existsb _ _).
Qed.

Lemma categorize_question_some (question category : string) :
  categorize_question question = Some category ->
  exists first others,
    category_scores (str_lower question) = first :: others
    /\ fst (max_by_score first others) = category.
Proof.
  intros H. pose proof (categorize_question_cases question) as Hc.
  destruct (category_scores (str_lower question)) as [|first others];
    [congruence|].
  exists first, others. split; [reflexivity|].
  rewrite H in Hc.
  destruct (2 <=? _); [now inversion Hc|].
  destruct (_ && _); [now inversion Hc|discriminate].
Qed.

(** ** Order of the scores *)

Lemma scored_entry_shape (question_lower : string)
    (entry : string * list string) :
  scored_entry question_lower entry = []
  \/ scored_entry question_lower entry
     = [(fst entry, category_score question_lower (snd entry))].
Proof.
  unfold scored_entry, scores_step. destruct (0 <? _); auto.
Qed.

Lemma scores_before (question_lower : string)
    (table : list (string * list string)) :
  NoDup (map fst table) ->
  forall before m after,
    flat_map (scored_entry question_lower) table = before ++ m :: after ->
    forall entry x,
      In entry table ->
      rank_in (map fst table) (fst entry) < rank_in (map fst table) (fst m) ->
      In x (scored_entry question_lower entry) ->
      In x before.
Proof.
  induction table as [|e0 table IH]; intros Hnd before m after E entry x
    Hentry Hrank Hx; [contradiction|].
  simpl in *. inversion Hnd as [|? ? Hfresh Hnd']; subst.
  destruct (String.eqb_spec (fst e0) (fst m)) as [E0|E0]; [lia|].
  assert (Hstep : forall before',
            flat_map (scored_entry question_lower) table
            = before' ++ m :: after ->
            In entry table -> In x before').
  { intros before' E' Hin.
    apply (IH Hnd' before' m after E' entry x Hin); [|exact Hx].
    destruct (String.eqb_spec (fst e0) (fst entry)) as [E1|E1]; [|lia].
    exfalso. apply Hfresh. rewrite E1. now apply in_map. }
  destruct (scored_entry_shape question_lower e0) as [Hs|Hs];
    rewrite Hs in E; simpl in E.
  - destruct Hentry as [<-|Hentry].
    + rewrite Hs in Hx. contradiction.
    + now apply Hstep.
  - destruct before as [|b before]; simpl in E.
    + injection E as Hm _. subst m. now cbn [fst] in E0.
    + injection E as Hb E. subst b.
      destruct Hentry as [<-|Hentry].
      * rewrite Hs in Hx. destruct Hx as [<-|[]]. now left.
      * right. now apply Hstep.
Qed.

(** ** Lower case *)

Lemma lower_char_twice (c : ascii) : lower_char (lower_char c) = lower_char c.
Proof. destruct c as [[] [] [] [] [] [] [] []]; reflexivity. Qed.

Lemma str_lower_twice (s : string) : str_lower (str_lower s) = str_lower s.
Proof.
  induction s as [|c s IH]; simpl; [reflexivity|].
  now rewrite lower_char_twice, IH.
Qed.

(** ** The guidance table *)

Lemma dict_get_missing (d : list (string * string)) (key default : string) :
  ~ In key (map fst d) -> dict_get d key default = default.
Proof.
  induction d as [|[k v] d IH]; simpl; intros H; [reflexivity|].
  destruct (String.eqb_spec k key) as [E|E]; [tauto|].
  apply IH. tauto.
Qed.

Lemma category_names_not_empty (category : string) :
  In category category_names -> category <> "".
Proof.
  intros Hin. vm_compute in Hin.
  repeat (destruct Hin as [<-|Hin]; [discriminate|]). contradiction.
Qed.

Lemma category_has_guidance (category : string) :
  In category category_names ->
  get_subject_specific_prompt category <> "".
Proof.
  intros Hin. vm_compute in Hin.
  repeat (destruct Hin as [<-|Hin]; [vm_compute; discriminate|]).
  contradiction.
Qed.

Lemma label_in_category_names (question category : string) :
  categorize_question question = Some category ->
  In category category_names.
Proof.
  intros H.
  destruct (categorize_question_some _ _ H) as (first & others & E & Hm).
  rewrite <- Hm. apply (category_scores_in question). rewrite E.
  apply max_by_score_in.
Qed.

(** A category of score 2 or more forces a label. *)
Lemma strong_score_gives_label (question category : string) :
  In category category_names ->
  2 <= score_of category question ->
  exists label,
    categorize_question question = Some label
    /\ 2 <= score_of label question.
Proof.
  intros Hcat Hscore.
  pose proof (categorize_question_cases question) as Hc.
  pose proof (category_scores_has question category Hcat) as Hhas.
  destruct (category_scores (str_lower question)) as [|first others] eqn:E.
  { exfalso. apply Hhas. lia. }
  set (m := max_by_score first others) in *.
  assert (Hm : 2 <= snd m).
  { etransitivity; [exact Hscore|].
    apply (max_by_score_max first others (category, _)). apply Hhas. lia. }
  exists (fst m). apply Nat.leb_le in Hm as Hm'. rewrite Hm' in Hc.
  split; [exact Hc|].
  assert (Hmin : In m (category_scores (str_lower question)))
    by (rewrite E; apply max_by_score_in).
  destruct (category_scores_in _ _ Hmin) as (_ & <- & _). exact Hm.
Qed.

(** ** Further properties of the classifier *)

(** X1: A question of ASCII characters in which no keyword of any
    category occurs as a whole word gets no label. *)
Theorem no_keyword_no_label (question : string) :
  ascii_only question = true ->
  (forall category, In category category_names ->
     category_occurrences category question = 0) ->
  categorize_question question = None.
Proof.
  intros _ Hnone. pose proof (categorize_question_cases question) as Hc.
  rewrite category_scores_flat_map in Hc.
  rewrite flat_map_nil in Hc; [exact Hc|].
  intros [c kws] Hentry. unfold scored_entry, scores_step. cbn [fst snd].
  rewrite category_score_zero; [reflexivity| |].
  - exact (table_keywords_overlap_free _ Hentry).
  - rewrite <- (keywords_of_entry _ _ _ category_names_nodup Hentry).
    apply Hnone. unfold category_names. now apply (in_map fst _ (c, kws)).
Qed.

Lemma no_keyword_no_label_witness :
  categorize_question "Who was Napoleon Bonaparte?" = None.
Proof.
  apply no_keyword_no_label; [vm_compute; reflexivity|].
  intros category Hin. vm_compute in Hin.
  repeat (destruct Hin as [<-|Hin]; [vm_compute; reflexivity|]).
  contradiction.
Defined.

(** X2: Every label [categorize_question] returns is one of the eight
    categories of the table, and [get_subject_specific_prompt] has a
    non-empty guidance for it. *)
Theorem label_is_known_category (question category : string) :
  categorize_question question = Some category ->
  In category category_names
  /\ get_subject_specific_prompt category <> "".
Proof.
  intros H. pose proof (label_in_category_names _ _ H) as Hin.
  split; [exact Hin|]. now apply category_has_guidance.
Qed.

Lemma label_is_known_category_witness :
  In "Science" category_names
  /\ get_subject_specific_prompt "Science" <> "".
Proof.
  apply (label_is_known_category "Explain photosynthesis").
  vm_compute. reflexivity.
Defined.

(** X3: [get_subject_specific_prompt] answers a non-empty guidance exactly on
    the eight category names of [SUBJECT_CATEGORIES]; on any other string
    it answers the empty string. *)
Theorem guidance_exactly_for_categories (category : string) :
  get_subject_specific_prompt category <> "" <-> In category category_names.
Proof.
  split; [|apply category_has_guidance].
  intros H. destruct (in_dec string_dec category category_names) as [Hin|Hout];
    [exact Hin|].
  exfalso. apply H. now apply dict_get_missing.
Qed.

(** X4: The label depends on the question only through its lower-case form:
    two questions that differ in the case of their letters get the same
    answer. *)
Theorem label_ignores_case (question1 question2 : string) :
  str_lower question1 = str_lower question2 ->
  categorize_question question1 = categorize_question question2.
Proof.
  intros H.
  destruct question1 as [|a1 q1], question2 as [|a2 q2];
    try discriminate; [reflexivity|].
  unfold categorize_question. cbv beta iota zeta. now rewrite H.
Qed.

Lemma label_ignores_case_witness :
  categorize_question "EXPLAIN PhotoSynthesis"
  = categorize_question "explain photosynthesis".
Proof. apply label_ignores_case. vm_compute. reflexivity. Defined.

(** X5: The label returned is a top-scoring category, and the first of them
    in the order of the table: no category scores more, and every category
    that comes earlier in the table scores strictly less. *)
Theorem label_is_first_top_score (question category other : string) :
  categorize_question question = Some category ->
  In other category_names ->
  score_of other question <= score_of category question
  /\ (rank_in category_names other < rank_in category_names category ->
      score_of other question < score_of category question).
Proof.
  intros H Hother.
  destruct (categorize_question_some _ _ H) as (first & others & E & Hm).
  set (m := max_by_score first others) in *.
  assert (Hmin : In m (category_scores (str_lower question)))
    by (rewrite E; apply max_by_score_in).
  destruct (category_scores_in _ _ Hmin) as (_ & Hsc & Hpos).
  rewrite Hm in Hsc.
  destruct (Nat.eq_dec (score_of other question) 0) as [Hz|Hnz].
  { rewrite Hz, <- Hsc. split; lia. }
  assert (Hin : In (other, score_of other question)
                   (category_scores (str_lower question)))
    by (apply category_scores_has; [exact Hother|lia]).
  rewrite <- Hsc. split.
  - rewrite E in Hin. exact (max_by_score_max _ _ _ Hin).
  - intros Hrank.
    destruct (max_by_score_first others first)
      as (before & after & Esplit & Hbefore & _).
    fold m in Esplit, Hbefore.
    unfold category_names in Hother.
    apply in_map_iff in Hother as ([c kws] & Ec & Hentry).
    cbn [fst] in Ec. subst c.
    assert (Hx : In (other, score_of other question) before).
    { apply (scores_before (str_lower question) SUBJECT_CATEGORIES
               category_names_nodup before m after)
        with (entry := (other, kws)).
      - rewrite <- category_scores_flat_map, E. exact Esplit.
      - exact Hentry.
      - cbn [fst]. rewrite Hm. exact Hrank.
      - unfold scored_entry, scores_step. cbn [fst snd].
        unfold score_of in *.
        rewrite (keywords_of_entry _ _ _ category_names_nodup Hentry) in *.
        destruct (Nat.ltb_spec 0 (category_score (str_lower question) kws));
          [now left|lia]. }
    rewrite Forall_forall in Hbefore. exact (Hbefore _ Hx).
Qed.

Lemma label_is_first_top_score_witness :
  categorize_question "algebra or physics" = Some "Mathematics"
  /\ score_of "Science" "algebra or physics"
     <= score_of "Mathematics" "algebra or physics".
Proof.
  split; [vm_compute; reflexivity|].
  apply (label_is_first_top_score "algebra or physics" "Mathematics"
           "Science").
  - vm_compute. reflexivity.
  - vm_compute. tauto.
Defined.

(** X6: In a question of ASCII characters, one whole-word occurrence of
    a keyword longer than six characters is enough for a label: the
    question is not left unlabelled. *)
Theorem long_keyword_gives_label (question category keyword : string) :
  ascii_only question = true ->
  In category category_names ->
  In keyword (keywords_of SUBJECT_CATEGORIES category) ->
  6 < String.length keyword ->
  0 < keyword_occurrences keyword question ->
  exists label,
    categorize_question question = Some label
    /\ 2 <= score_of label question.
Proof.
  intros _ Hcat Hkw Hlong Hocc.
  apply (strong_score_gives_label question category Hcat).
  assert (Hentry : In (category, keywords_of SUBJECT_CATEGORIES category)
                      SUBJECT_CATEGORIES).
  { unfold category_names in Hcat.
    apply in_map_iff in Hcat as ([c kws] & E & Hc). cbn [fst] in E. subst c.
    now rewrite (keywords_of_entry _ _ _ category_names_nodup Hc). }
  unfold score_of.
  pose proof (points_le_score (str_lower question) _ _ Hkw) as Hle.
  pose proof (table_keywords_overlap_free _ Hentry) as Hfree.
  cbn [snd] in Hfree. rewrite forallb_forall in Hfree.
  rewrite (keyword_points_occurrences _ _ (Hfree _ Hkw)) in Hle.
  apply Nat.ltb_lt in Hlong, Hocc. rewrite Hlong, Hocc in Hle.
  apply Nat.ltb_lt in Hocc. cbn [andb] in Hle. lia.
Qed.

Lemma long_keyword_gives_label_witness :
  exists label,
    categorize_question "Tell me about the renaissance" = Some label
    /\ 2 <= score_of label "Tell me about the renaissance".
Proof.
  apply (long_keyword_gives_label _ "History" "renaissance").
  - vm_compute. reflexivity.
  - vm_compute. tauto.
  - vm_compute. tauto.
  - vm_compute. lia.
  - vm_compute. lia.
Defined.

(** X7: A question is left without label only when no category scores 2 or
    more. *)
Theorem no_label_only_below_two (question category : string) :
  categorize_question question = None ->
  In category category_names ->
  score_of category question <= 1.
Proof.
  intros Hnone Hcat.
  destruct (le_lt_dec (score_of category question) 1) as [H|H]; [exact H|].
  destruct (strong_score_gives_label question category Hcat H)
    as (label & Hlabel & _).
  congruence.
Qed.

Lemma no_label_only_below_two_witness :
  score_of "Mathematics" "How do you solve this math problem?" <= 1.
Proof.
  apply no_label_only_below_two.
  - vm_compute. reflexivity.
  - vm_compute. tauto.
Defined.

End CategorizerMore.

(* ===================================================================== *)
(** * More on the persistence layer *)
(* ===================================================================== *)

Module DatabaseMore.

Import Database DatabaseFacts.
Local Open Scope Z_scope.

(** ** What a call can persist *)

Lemma create_healthy (now : datetime) (session_name : string) (s : Store) :
  create_study_session Healthy now session_name s
  = (Returned (next_session_id s),
     mkStore
       (study_sessions s
        ++ [mkStudySession (next_session_id s) session_name now now])
       (chat_exchanges s) (next_session_id s + 1) (next_exchange_id s)).
Proof. reflexivity. Qed.

Lemma create_persists (b : Backend) (now : datetime) (session_name : string)
    (s : Store) :
  snd (create_study_session b now session_name s) = s
  \/ snd (create_study_session b now session_name s)
     = snd (create_study_session Healthy now session_name s).
Proof.
  destruct b as [|[|[|[|n]]]]; unfold create_study_session; run_db; auto.
Qed.

Lemma delete_persists (b : Backend) (session_id : Z) (s : Store) :
  snd (delete_study_session b session_id s) = s
  \/ snd (delete_study_session b session_id s)
     = snd (delete_study_session Healthy session_id s).
Proof.
  destruct b as [|[|[|[|n]]]].
  - now right.
  - left. now rewrite delete_unanswered by lia.
  - left. now rewrite delete_unanswered by lia.
  - left. now rewrite delete_unanswered by lia.
  - right. now rewrite delete_answered.
Qed.

Lemma save_healthy (now : datetime) (session_id : Z)
    (question answer : string) (subject_category : option string)
    (s : Store) :
  save_chat_exchange Healthy now session_id question answer
    subject_category s
  = if session_exists s session_id && fits_varchar 100 subject_category
    then (Returned (next_exchange_id s),
          mkStore (study_sessions s)
            (chat_exchanges s
             ++ [mkChatExchange (next_exchange_id s) session_id question
                   answer subject_category None None now])
            (next_session_id s) (next_exchange_id s + 1))
    else (Raised, s).
Proof.
  unfold save_chat_exchange. run_db.
  destruct (session_exists s session_id); [|reflexivity].
  now destruct (fits_varchar 100 subject_category).
Qed.

(** X8: A call that writes persists all the rows a healthy call
    persists, or none of them: [create_study_session], [save_chat_exchange]
    and [update_exchange_rating] leave no partial write behind, whatever
    round trip the backend fails.  The statement is about the rows of the
    two tables, not the key sequences. *)
Theorem writes_all_or_nothing (b : Backend) (now : datetime)
    (session_name : string) (session_id : Z) (question answer : string)
    (subject_category : option string) (exchange_id : Z)
    (rating : option Z) (feedback : option string) (s : Store) :
  let created b := snd (create_study_session b now session_name s) in
  let saved b :=
    snd (save_chat_exchange b now session_id question answer
           subject_category s) in
  let rated b :=
    snd (update_exchange_rating b exchange_id rating feedback s) in
  (stored_rows (created b) = stored_rows s
   \/ stored_rows (created b) = stored_rows (created Healthy))
  /\ (stored_rows (saved b) = stored_rows s
      \/ stored_rows (saved b) = stored_rows (saved Healthy))
  /\ (stored_rows (rated b) = stored_rows s
      \/ stored_rows (rated b) = stored_rows (rated Healthy)).
Proof.
  cbv zeta. split; [|split].
  - destruct (create_persists b now session_name s) as [-> | ->]; auto.
  - destruct (save_persists b now session_id question answer
                subject_category s) as [->|(_ & _ & ->)]; auto.
  - destruct (update_persists b exchange_id rating feedback s)
      as [-> | ->]; auto.
Qed.

(** X9: Saving an exchange for a session that is not stored raises and
    leaves the rows of both tables as they were, on every backend. *)
Theorem save_needs_stored_session (b : Backend) (now : datetime)
    (session_id : Z) (question answer : string)
    (subject_category : option string) (s : Store) :
  session_exists s session_id = false ->
  fst (save_chat_exchange b now session_id question answer
         subject_category s) = Raised
  /\ stored_rows
       (snd (save_chat_exchange b now session_id question answer
               subject_category s))
     = stored_rows s.
Proof.
  intros H. destruct b as [|[|n]];
    unfold save_chat_exchange; run_db; rewrite ?H; split; reflexivity.
Qed.

Lemma save_needs_stored_session_witness :
  fst (save_chat_exchange Healthy 9 7 "q" "a" None stats_scenario) = Raised
  /\ stored_rows
       (snd (save_chat_exchange Healthy 9 7 "q" "a" None stats_scenario))
     = stored_rows stats_scenario.
Proof. apply save_needs_stored_session. reflexivity. Defined.

(** ** Primary keys *)

Lemma sorted_app_last (l : list Z) (x y : Z) :
  StronglySorted Z.lt (l ++ [x]) ->
  x < y ->
  StronglySorted Z.lt ((l ++ [x]) ++ [y]).
Proof.
  induction l as [|a l IH]; simpl; intros Hs Hxy.
  - repeat constructor. exact Hxy.
  - inversion Hs as [|? ? Hs' Ha]; subst.
    constructor; [now apply IH|].
    rewrite Forall_forall in *. intros z Hz.
    apply in_app_or in Hz as [Hz|[<-|[]]]; [now apply Ha|].
    assert (a < x) by (apply Ha, in_or_app; right; now left). lia.
Qed.

Lemma sorted_bump (l : list Z) (x y : Z) :
  StronglySorted Z.lt (l ++ [x]) ->
  x <= y ->
  StronglySorted Z.lt (l ++ [y]).
Proof.
  induction l as [|a l IH]; simpl; intros Hs Hxy.
  - repeat constructor.
  - inversion Hs as [|? ? Hs' Ha]; subst.
    constructor; [now apply IH|].
    rewrite Forall_forall in *. intros z Hz.
    apply in_app_or in Hz as [Hz|[<-|[]]].
    + apply Ha, in_or_app. now left.
    + assert (a < x) by (apply Ha, in_or_app; right; now left). lia.
Qed.

Lemma sorted_filter_keys {A} (key : A -> Z) (p : A -> bool) (l : list A)
    (x : Z) :
  StronglySorted Z.lt (map key l ++ [x]) ->
  StronglySorted Z.lt (map key (filter p l) ++ [x]).
Proof.
  induction l as [|a l IH]; simpl; intros Hs; [exact Hs|].
  inversion Hs as [|? ? Hs' Ha]; subst.
  destruct (p a); simpl; [|now apply IH].
  constructor; [now apply IH|].
  rewrite Forall_forall in *. intros z Hz. apply Ha.
  apply in_app_or in Hz as [Hz|Hz]; apply in_or_app; [left|now right].
  apply in_map_iff in Hz as (e & <- & He). apply filter_In in He as [He _].
  now apply in_map.
Qed.

Lemma set_first_keys (exchange_id : Z) (f : ChatExchange -> ChatExchange)
    (rows : list ChatExchange) :
  (forall e, ce_id (f e) = ce_id e) ->
  map ce_id (set_first_with_id exchange_id f rows) = map ce_id rows.
Proof.
  intros Hid. induction rows as [|e rows IH]; simpl; [reflexivity|].
  destruct (ce_id e =? exchange_id); simpl; [now rewrite Hid|now rewrite IH].
Qed.

Lemma serve_persists (s : Store) (call : Backend * Request) :
  serve s call = s \/ serve s call = serve s (Healthy, snd call).
Proof.
  destruct call as [b [now name|now sid q a c|eid r f|sid]]; cbn [serve snd].
  - apply create_persists.
  - destruct (save_persists b now sid q a c s) as [H|(_ & _ & H)];
      [now left|right; exact H].
  - apply update_persists.
  - apply delete_persists.
Qed.

Lemma serve_keeps_keys (s : Store) (call : Backend * Request) :
  keys_ok s -> keys_ok (serve s call).
Proof.
  intros [Hs He].
  destruct (serve_persists s call) as [-> | ->]; [now split|].
  destruct call as [b [now name|now sid q a c|eid r f|sid]]; cbn [serve snd].
  - rewrite create_healthy. split; cbn [snd study_sessions chat_exchanges
      next_session_id next_exchange_id]; [|exact He].
    rewrite map_app. cbn [map ss_id]. apply sorted_app_last; [exact Hs|lia].
  - rewrite save_healthy. destruct (_ && _); [|now split].
    split; cbn [snd study_sessions chat_exchanges
      next_session_id next_exchange_id]; [exact Hs|].
    rewrite map_app. cbn [map ce_id]. apply sorted_app_last; [exact He|lia].
  - rewrite update_healthy. destruct (find _ _); [|now split].
    destruct (fits_rating r); [|now split].
    split; cbn [snd study_sessions chat_exchanges
      next_session_id next_exchange_id]; [exact Hs|].
    now rewrite set_first_keys.
  - rewrite delete_healthy.
    split; cbn [snd study_sessions chat_exchanges
      next_session_id next_exchange_id]; now apply sorted_filter_keys.
Qed.

Lemma serve_keeps_foreign_keys (s : Store) (call : Backend * Request) :
  foreign_keys_ok s = true -> foreign_keys_ok (serve s call) = true.
Proof.
  destruct call as [b [now name|now sid q a c|eid r f|sid]]; cbn [serve].
  - apply create_keeps_foreign_keys.
  - apply save_keeps_foreign_keys.
  - apply update_keeps_foreign_keys.
  - apply delete_keeps_foreign_keys.
Qed.

Lemma sorted_keys_nodup (l : list Z) (x : Z) :
  StronglySorted Z.lt (l ++ [x]) ->
  NoDup l /\ Forall (fun k => k < x) l.
Proof.
  induction l as [|a l IH]; simpl; intros Hs; [split; constructor|].
  inversion Hs as [|? ? Hs' Ha]; subst.
  destruct (IH Hs') as [Hnd Hlt]. rewrite Forall_forall in Ha.
  split; constructor; auto.
  - intros Hin. assert (a < a) by (apply Ha, in_or_app; now left). lia.
  - apply Ha, in_or_app. right. now left.
Qed.

(** X10: Whatever writing calls were served since the empty store, and whatever
    the backend did to each: no two sessions and no two exchanges share a
    key, every key is below the sequence of its table, and every exchange
    refers to a stored session. *)
Theorem served_store_well_formed (calls : list (Backend * Request)) :
  let s := serve_all calls empty_store in
  NoDup (map ss_id (study_sessions s))
  /\ NoDup (map ce_id (chat_exchanges s))
  /\ Forall (fun k => k < next_session_id s) (map ss_id (study_sessions s))
  /\ Forall (fun k => k < next_exchange_id s) (map ce_id (chat_exchanges s))
  /\ foreign_keys_ok s = true.
Proof.
  assert (H : forall s, keys_ok s -> foreign_keys_ok s = true ->
            keys_ok (serve_all calls s)
            /\ foreign_keys_ok (serve_all calls s) = true).
  { induction calls as [|c calls IH]; intros s Hk Hf; [now split|].
    apply IH; [now apply serve_keeps_keys|now apply serve_keeps_foreign_keys]. }
  destruct (H empty_store) as [[Hs He] Hfk].
  - split; repeat constructor.
  - reflexivity.
  - destruct (sorted_keys_nodup _ _ Hs), (sorted_keys_nodup _ _ He).
    cbv zeta. auto.
Qed.

(** ** ORDER BY, again *)

Section Ordered.

Variable A : Type.
Variable le : A -> A -> bool.
Hypothesis le_total : forall a b, le a b = false -> le b a = true.

Lemma insert_by_sorted (x : A) (l : list A) :
  Sorted (fun a b => le a b = true) l ->
  Sorted (fun a b => le a b = true) (insert_by le x l).
Proof.
  induction 1 as [|y l Hs IH Hy]; simpl.
  - repeat constructor.
  - destruct (le x y) eqn:E.
    + repeat constructor; assumption.
    + constructor; [exact IH|].
      destruct l as [|z l]; simpl.
      * constructor. now apply le_total.
      * destruct (le x z); constructor;
          [now apply le_total|now inversion Hy].
Qed.

Lemma order_by_is_sorted (l : list A) :
  Sorted (fun a b => le a b = true) (order_by le l).
Proof.
  induction l as [|x l IH]; simpl; [constructor|].
  now apply insert_by_sorted.
Qed.

End Ordered.

Lemma Sorted_weaken {A} (R R' : A -> A -> Prop) (l : list A) :
  (forall a b, R a b -> R' a b) -> Sorted R l -> Sorted R' l.
Proof.
  intros HR. induction 1 as [|x l Hs IH Hx]; constructor; [exact IH|].
  destruct Hx; constructor. now apply HR.
Qed.



(** ** Listings *)

(** X11: [get_study_sessions] lists every stored session once, the most
    recently updated first. *)
Theorem sessions_listed_latest_first (s : Store) :
  exists rows,
    get_study_sessions Healthy s = (Returned (map session_info rows), s)
    /\ Permutation rows (study_sessions s)
    /\ Sorted (fun a b => ss_updated_at b <= ss_updated_at a) rows.
Proof.
  eexists. split; [apply sessions_healthy|]. split; [apply order_by_perm|].
  eapply Sorted_weaken; [|apply order_by_is_sorted].
  - intros a b H. cbv beta in H. now apply Z.leb_le.
  - intros a b H. cbv beta in *. apply Z.leb_le. apply Z.leb_gt in H. lia.
Qed.

(** X12: [get_chat_history] returns the exchanges of the session asked for, all
    of them and no other, each once, by ascending timestamp. *)
Theorem history_sorted_and_complete (strftime : datetime -> string)
    (session_id : Z) (s : Store) :
  exists rows,
    get_chat_history strftime Healthy session_id s
    = (Returned (map (exchange_info strftime) rows), s)
    /\ Permutation rows (of_session session_id (chat_exchanges s))
    /\ Sorted (fun a b => ce_timestamp a <= ce_timestamp b) rows
    /\ Forall (fun e => ce_session_id e = session_id) rows.
Proof.
  eexists. split; [apply history_healthy|]. split; [apply order_by_perm|].
  split; [apply order_by_ascending|].
  apply Forall_forall. intros e He. apply order_by_in in He.
  unfold of_session in He. apply filter_In in He as [_ He].
  now apply Z.eqb_eq.
Qed.

(** ** create_study_session *)

(** X13: On a store with well-formed keys, a new session whose name fits
    the VARCHAR(255) column gets a key no stored session has, and
    [get_study_sessions] then lists an entry with that key and that name,
    beside the sessions that were there, one entry more than before.
    Nothing is said of its two timestamps, which are the readings the
    column defaults take at the insert. *)
Theorem created_session_is_listed (now : datetime) (session_name : string)
    (s : Store) :
  keys_ok s ->
  (String.length session_name <= 255)%nat ->
  exists s' listed created_at updated_at,
    create_study_session Healthy now session_name s
    = (Returned (next_session_id s), s')
    /\ ~ In (next_session_id s) (map ss_id (study_sessions s))
    /\ get_study_sessions Healthy s' = (Returned listed, s')
    /\ In (mkSessionInfo (next_session_id s) session_name created_at
             updated_at) listed
    /\ (forall r, In r (study_sessions s) -> In (session_info r) listed)
    /\ List.length listed = S (List.length (study_sessions s)).
Proof.
  intros [Hs _] _. destruct (sorted_keys_nodup _ _ Hs) as [_ Hlt].
  do 2 eexists. exists now, now. split; [apply create_healthy|].
  split; [|split; [apply sessions_healthy|]].
  - intros Hin. rewrite Forall_forall in Hlt. specialize (Hlt _ Hin). lia.
  - cbn [study_sessions]. repeat split.
    + change (mkSessionInfo (next_session_id s) session_name now now)
        with (session_info
                (mkStudySession (next_session_id s) session_name now now)).
      apply in_map, order_by_in, in_or_app. right. now left.
    + intros r Hr. apply in_map, order_by_in, in_or_app. now left.
    + rewrite length_map, (Permutation_length (order_by_perm _ _)).
      rewrite length_app. simpl. lia.
Qed.

Lemma created_session_is_listed_witness :
  exists s' listed created_at updated_at,
    create_study_session Healthy 5 "S3" stats_scenario = (Returned 3, s')
    /\ ~ In 3 (map ss_id (study_sessions stats_scenario))
    /\ get_study_sessions Healthy s' = (Returned listed, s')
    /\ In (mkSessionInfo 3 "S3" created_at updated_at) listed
    /\ (forall r, In r (study_sessions stats_scenario) ->
          In (session_info r) listed)
    /\ List.length listed = 3%nat.
Proof.
  apply (created_session_is_listed 5 "S3" stats_scenario).
  - split; simpl; repeat constructor; lia.
  - simpl. lia.
Defined.




(** ** Ratings in the history *)






(** X24: A rating that does not fit the INTEGER column is refused: when
    an exchange with the given key is stored, [update_exchange_rating]
    raises and stores nothing, on every backend. *)
Theorem update_refuses_wide_rating (b : Backend) (exchange_id : Z)
    (rating : option Z) (feedback : option string) (s : Store)
    (e : ChatExchange) :
  find (fun e => ce_id e =? exchange_id) (chat_exchanges s) = Some e ->
  fits_rating rating = false ->
  update_exchange_rating b exchange_id rating feedback s = (Raised, s).
Proof.
  intros Hfind Hwide.
  destruct b as [|[|[|n]]]; unfold update_exchange_rating; run_db;
    rewrite ?Hfind; cbn [fst snd committed working pending_ok backend];
    rewrite ?Hwide; reflexivity.
Qed.

Lemma update_refuses_wide_rating_witness :
  update_exchange_rating Healthy 1 (Some 2147483648) None stats_scenario
  = (Raised, stats_scenario).
Proof.
  apply (update_refuses_wide_rating Healthy 1 (Some 2147483648) None
           stats_scenario
           (mkChatExchange 1 1 "q1" "a1" None (Some 1) None 2));
    reflexivity.
Defined.

(** ** Sessions do not disturb each other *)

Lemma of_session_other (session_id other : Z) (rows : list ChatExchange) :
  other <> session_id ->
  of_session other
    (filter (fun e => negb (ce_session_id e =? session_id)) rows)
  = of_session other rows.
Proof.
  intros Hne. unfold of_session.
  induction rows as [|e rows IH]; simpl; [reflexivity|].
  destruct (Z.eqb_spec (ce_session_id e) session_id) as [E|E]; simpl.
  - destruct (Z.eqb_spec (ce_session_id e) other); [congruence|exact IH].
  - now rewrite IH.
Qed.

(** X16: Saving an exchange in a session, or deleting a session, never changes
    the history of another session, whatever the backend does. *)
Theorem other_histories_untouched (strftime : datetime -> string)
    (b : Backend) (now : datetime) (session_id other : Z)
    (question answer : string) (subject_category : option string)
    (s : Store) :
  other <> session_id ->
  fst (get_chat_history strftime Healthy other
         (snd (save_chat_exchange b now session_id question answer
                 subject_category s)))
  = fst (get_chat_history strftime Healthy other s)
  /\ fst (get_chat_history strftime Healthy other
            (snd (delete_study_session b session_id s)))
     = fst (get_chat_history strftime Healthy other s).
Proof.
  intros Hne. split.
  - destruct (save_persists b now session_id question answer
                subject_category s) as [->|(Hex & Hfits & ->)];
      [reflexivity|].
    rewrite record_existing by assumption. rewrite !history_healthy.
    cbn [fst chat_exchanges]. do 3 f_equal.
    unfold of_session. rewrite filter_app. simpl.
    cbn [rec_session_id].
    destruct (Z.eqb_spec session_id other); [congruence|].
    now rewrite app_nil_r.
  - destruct (delete_persists b session_id s) as [-> | ->]; [reflexivity|].
    rewrite delete_healthy, !history_healthy. cbn [fst snd chat_exchanges].
    now rewrite of_session_other.
Qed.

Lemma other_histories_untouched_witness :
  fst (get_chat_history (fun _ => EmptyString) Healthy 1
         (snd (save_chat_exchange Healthy 9 2 "q" "a" None stats_scenario)))
  = fst (get_chat_history (fun _ => EmptyString) Healthy 1 stats_scenario)
  /\ fst (get_chat_history (fun _ => EmptyString) Healthy 1
            (snd (delete_study_session Healthy 2 stats_scenario)))
     = fst (get_chat_history (fun _ => EmptyString) Healthy 1 stats_scenario).
Proof. apply other_histories_untouched. lia. Defined.

(** ** Rounding and the reported average *)

Local Open Scope Q_scope.

Lemma round_half_even_near (x : Q) :
  inject_Z (round_half_even x) - (1 # 2) <= x
  /\ x <= inject_Z (round_half_even x) + (1 # 2).
Proof.
  unfold round_half_even.
  pose proof (Qfloor_le x) as Hlo.
  pose proof (Qlt_floor x) as Hhi.
  rewrite inject_Z_plus in Hhi. change (inject_Z 1) with 1 in Hhi.
  destruct (Qcompare_spec (x - inject_Z (Qfloor x)) (1 # 2)) as [E|L|G].
  - destruct (Z.even (Qfloor x)).
    + split; lra.
    + rewrite inject_Z_plus. change (inject_Z 1) with 1. split; lra.
  - split; lra.
  - rewrite inject_Z_plus. change (inject_Z 1) with 1. split; lra.
Qed.

Lemma Qmake_hundredths (z : Z) : z # 100 == inject_Z z * (1 # 100).
Proof. unfold Qeq, inject_Z, Qmult. simpl. lia. Qed.

(** [round2] moves a value by at most half a hundredth, onto a multiple of
    a hundredth. *)
Lemma round2_near (x : Q) :
  x - (1 # 200) <= round2 x /\ round2 x <= x + (1 # 200).
Proof.
  unfold round2. rewrite Qmake_hundredths.
  destruct (round_half_even_near (x * 100)) as [Hlo Hhi].
  split; lra.
Qed.

Lemma sum_ratings_zero (ratings : list Z) :
  truthy_avg (sql_avg ratings) = false <->
  ratings = [] \/ sum_Z ratings = 0%Z.
Proof.
  destruct ratings as [|r ratings].
  - simpl. tauto.
  - unfold sql_avg, truthy_avg. cbn [Qnum].
    destruct (Z.eqb_spec (sum_Z (r :: ratings)) 0) as [E|E]; simpl.
    + split; [now right|reflexivity].
    + split; [discriminate|]. intros [H|H]; [discriminate|contradiction].
Qed.

(** X17: [get_session_stats] counts the stored sessions and the stored
    exchanges.  It reports no average exactly when no exchange is rated or
    the ratings sum to zero; otherwise it reports a number of hundredths
    within half a hundredth of the mean of the non-null ratings. *)
Theorem stats_report (s : Store) :
  let ratings := non_null_ratings (chat_exchanges s) in
  let mean := sum_Z ratings # Pos.of_nat (List.length ratings) in
  exists report,
    get_session_stats Healthy s = (Returned report, s)
    /\ total_sessions report = List.length (study_sessions s)
    /\ total_exchanges report = List.length (chat_exchanges s)
    /\ match average_rating report with
       | None => ratings = [] \/ sum_Z ratings = 0%Z
       | Some average =>
           ratings <> [] /\ sum_Z ratings <> 0%Z
           /\ Qden average = 100%positive
           /\ mean - (1 # 200) <= average
           /\ average <= mean + (1 # 200)
       end.
Proof.
  intros ratings mean. eexists. split; [apply stats_healthy|].
  cbn [total_sessions total_exchanges average_rating]. repeat split.
  fold ratings. cbv zeta.
  destruct (truthy_avg (sql_avg ratings)) eqn:E.
  - assert (Hnot : ~ (ratings = [] \/ sum_Z ratings = 0%Z)).
    { intros H. apply sum_ratings_zero in H. congruence. }
    destruct ratings as [|r rest] eqn:Er; [tauto|].
    cbn [sql_avg option_map]. fold mean.
    destruct (round2_near mean) as [Hlo Hhi].
    repeat split; try assumption; try discriminate; tauto.
  - now apply sum_ratings_zero.
Qed.

End DatabaseMore.

(* ===================================================================== *)
(** * More on the export and the prompt *)
(* ===================================================================== *)

Module AppMore.

Import Database App AppFacts.
Import Categorizer CategorizerMore.
Local Open Scope string_scope.

(** ** The export, exchange by exchange *)

Lemma write_exchanges_app (history1 history2 : list ExchangeInfo) :
  forall (output : StringIO) (i : nat),
    write_exchanges output i (history1 ++ history2)
    = write_exchanges (write_exchanges output i history1)
        (i + List.length history1) history2.
Proof.
  induction history1 as [|e h IH]; intros output i; simpl.
  - now rewrite Nat.add_0_r.
  - rewrite IH. now rewrite Nat.add_succ_r.
Qed.

Section ExportMore.

Variable datetime_str : datetime -> string.

(** X18: The export of a session grows at its end only: with one more exchange
    it is the export there was followed by the block of the new exchange,
    numbered after the last. *)
Theorem export_appends (name : string) (created_at : datetime)
    (history : list ExchangeInfo) (exchange : ExchangeInfo) :
  export_session_notes datetime_str
    (mkSessionData name created_at (history ++ [exchange]))
  = export_session_notes datetime_str
      (mkSessionData name created_at history)
    ++ exchange_block (S (List.length history)) exchange.
Proof.
  unfold export_session_notes. cbn [sd_history].
  rewrite write_exchanges_app. simpl.
  apply write_exchange_block.
Qed.

End ExportMore.

(** X19: The block of an exchange: question and answer under their numbered
    headings, then a subject line when the category is a non-empty string,
    a rating line when the rating is a non-zero integer (thumbs up above
    zero, thumbs down below), a feedback line when the feedback is a
    non-empty string, then the time and the separator. *)
Theorem exchange_block_format (i : nat) (exchange : ExchangeInfo) :
  exchange_block i exchange
  = "Question " ++ str_of_nat i ++ ":" ++ newline
    ++ ei_question exchange ++ newline ++ newline
    ++ "Answer " ++ str_of_nat i ++ ":" ++ newline
    ++ ei_answer exchange ++ newline ++ newline
    ++ match ei_subject_category exchange with
       | Some (String c category) =>
           "Subject: " ++ String c category ++ newline
       | _ => ""
       end
    ++ match ei_rating exchange with
       | Some (Zpos _) => "Rating: " ++ thumbs_up ++ newline
       | Some (Zneg _) => "Rating: " ++ thumbs_down ++ newline
       | _ => ""
       end
    ++ match ei_feedback exchange with
       | Some (String c feedback) =>
           "Feedback: " ++ String c feedback ++ newline
       | _ => ""
       end
    ++ "Time: " ++ ei_timestamp exchange ++ newline
    ++ repeat_str "-" 30 ++ newline ++ newline.
Proof.
  unfold exchange_block, write_exchange, write.
  change (EmptyString ++ ?x) with x.
  destruct (ei_subject_category exchange) as [[|c1 s1]|];
    destruct (ei_rating exchange) as [[|p|p]|];
    destruct (ei_feedback exchange) as [[|c2 s2]|];
    cbn [truthy_str truthy_int Z.eqb negb Z.ltb Z.compare];
    rewrite !string_app_assoc; reflexivity.
Qed.

(** ** The prompt *)

Lemma truthy_str_some (s : string) :
  s <> "" -> truthy_str (Some s) = true.
Proof. destruct s; [congruence|reflexivity]. Qed.

Lemma concat_cons (x : string) (l : list string) :
  String.concat "" (x :: l) = x ++ String.concat "" l.
Proof. destruct l; simpl; [now rewrite string_app_nil_r|reflexivity]. Qed.

Lemma add_turns (items : list ExchangeInfo) :
  forall context : string,
    fold_left add_turn items context
    = context
      ++ String.concat ""
           (map (fun item =>
                   "Student: " ++ ei_question item ++ newline
                   ++ "Assistant: " ++ ei_answer item ++ newline ++ newline)
                items).
Proof.
  induction items as [|item items IH]; intros context.
  - simpl. now rewrite string_app_nil_r.
  - cbn [fold_left map]. rewrite IH, concat_cons. unfold add_turn.
    now rewrite !string_app_assoc.
Qed.

(** X20: The prompt is the system prompt, then, when the history has at least
    one exchange, the heading of the context and the exchanges of the
    history as Student and Assistant turns, first to last, then the
    question and the cue for the answer.  An absent history and an empty
    one give the same prompt. *)
Theorem prompt_layout (question : string)
    (conversation_history : option (list ExchangeInfo))
    (subject_category : option string) :
  full_prompt question conversation_history subject_category
  = system_prompt subject_category
    ++ match conversation_history with
       | Some (item :: items) =>
           newline ++ newline
           ++ "Previous conversation context:" ++ newline
           ++ String.concat ""
                (map (fun item =>
                        "Student: " ++ ei_question item ++ newline
                        ++ "Assistant: " ++ ei_answer item ++ newline
                        ++ newline)
                     (item :: items))
       | _ => ""
       end
    ++ newline ++ newline ++ "Student: " ++ question ++ newline
    ++ "Assistant:".
Proof.
  unfold full_prompt.
  destruct conversation_history as [[|item items]|]; try reflexivity.
  unfold conversation_context. rewrite add_turns.
  set (turns := String.concat "" _).
  cbn [truthy_str append]. now rewrite !string_app_assoc.
Qed.

(** X21: A subject that is not one of the eight categories adds nothing to the
    prompt: it is the prompt of a question without subject. *)
Theorem prompt_ignores_unknown_subject (question : string)
    (conversation_history : option (list ExchangeInfo))
    (subject_category : string) :
  ~ In subject_category category_names ->
  full_prompt question conversation_history (Some subject_category)
  = full_prompt question conversation_history None.
Proof.
  intros Hout. unfold full_prompt.
  replace (system_prompt (Some subject_category)) with (system_prompt None);
    [reflexivity|].
  unfold system_prompt.
  destruct (truthy_str (Some subject_category)); [|reflexivity].
  unfold get_subject_specific_prompt.
  now rewrite (dict_get_missing prompts subject_category "" Hout).
Qed.

Lemma prompt_ignores_unknown_subject_witness :
  full_prompt "What is a fresco?" None (Some "Art")
  = full_prompt "What is a fresco?" None None.
Proof.
  apply prompt_ignores_unknown_subject.
  vm_compute. intuition discriminate.
Defined.

(** X22: Every label [categorize_question] returns puts its guidance in the
    system prompt, under the name of the subject. *)
Theorem detected_label_adds_guidance (asked label : string) :
  categorize_question asked = Some label ->
  get_subject_specific_prompt label <> ""
  /\ system_prompt (categorize_question asked)
     = system_prompt_base ++ newline ++ newline
       ++ "Subject-specific guidance for " ++ label ++ ": "
       ++ get_subject_specific_prompt label.
Proof.
  intros H. pose proof (label_in_category_names _ _ H) as Hin.
  pose proof (category_has_guidance _ Hin) as Hg.
  split; [exact Hg|]. rewrite H. unfold system_prompt.
  rewrite (truthy_str_some _ (category_names_not_empty _ Hin)).
  now rewrite (truthy_str_some _ Hg).
Qed.

Lemma detected_label_adds_guidance_witness :
  get_subject_specific_prompt "Science" <> ""
  /\ system_prompt (categorize_question "Explain photosynthesis")
     = system_prompt_base ++ newline ++ newline
       ++ "Subject-specific guidance for " ++ "Science" ++ ": "
       ++ get_subject_specific_prompt "Science".
Proof.
  apply detected_label_adds_guidance. vm_compute. reflexivity.
Defined.

(** X23: [get_enhanced_ai_response] never answers the empty string, whatever
    the client does: a response without text, or with an empty text, is
    replaced by an apology, and a failure of the client by a message that
    starts with "Error getting response from AI: ". *)
Theorem answer_never_empty (client : Client) (question : string)
    (conversation_history : option (list ExchangeInfo))
    (subject_category : option string) :
  get_enhanced_ai_response client question conversation_history
    subject_category <> "".
Proof.
  unfold get_enhanced_ai_response.
  destruct (client _) as [[[|c text]|]|message]; simpl; discriminate.
Qed.

End AppMore.
